(** * Safety-protocol API: request validation, routing and the compliance engine

    The repository's two route modules, [src/routes/protocolRoutes.ts] and
    [src/routes/hazardZoneRoutes.ts], declare zod schemas and wire them,
    together with the authentication middleware, into Express routers.
    This development embeds

    - the JavaScript values a request carries ([Js]),
    - the fragment of zod the schemas are written in ([Zod]),
    - the schemas and routers of the two modules ([ProtocolRoutes],
      [HazardZoneRoutes]) over a model of Express dispatch ([Express]),
    - the compliance engine the specification describes ([Engine]).
*)

From Stdlib Require Import String Ascii.
From Stdlib Require Import List ZArith QArith Bool Lia.
Import ListNotations.

Set Warnings "-register-all".

(** ** JavaScript values *)

Module Js.

(** A JavaScript string is the sequence of its UTF-16 code units; [length]
    is the [.length] of the string, which is what zod's [min] and [max]
    compare. *)
Definition jsstring : Type := list N.

Definition lit (s : string) : jsstring :=
  map N_of_ascii (list_ascii_of_string s).

Fixpoint str_eqb (a b : jsstring) : bool :=
  match a, b with
  | [], [] => true
  | x :: a', y :: b' => N.eqb x y && str_eqb a' b'
  | _, _ => false
  end.

(** The values a parsed JSON body is made of, and [undefined], which is what
    reading an absent property yields.  A number is a finite double, hence a
    rational; [NaN] and the infinities have no JSON syntax. *)
Inductive value : Type :=
| VUndefined
| VNull
| VBool (b : bool)
| VNum (q : Q)
| VStr (s : jsstring)
| VArr (items : list value)
| VObj (fields : list (jsstring * value)).

(** [o[key]] on the own properties of an object literal. *)
Fixpoint prop (key : jsstring) (fields : list (jsstring * value)) : value :=
  match fields with
  | [] => VUndefined
  | (k, v) :: rest => if str_eqb key k then v else prop key rest
  end.

(** [Number.isInteger]. *)
Definition isInteger (q : Q) : bool :=
  Pos.eqb (Qden (Qred q)) 1.

Definition digit (c : N) : bool := (48 <=? c)%N && (c <=? 57)%N.

Definition hexDigit (c : N) : bool :=
  digit c || ((65 <=? c)%N && (c <=? 70)%N) || ((97 <=? c)%N && (c <=? 102)%N).

(** [takeN p n s] consumes exactly [n] code units satisfying [p]. *)
Fixpoint takeN (p : N -> bool) (n : nat) (s : jsstring) : option jsstring :=
  match n with
  | O => Some s
  | S n' =>
      match s with
      | c :: rest => if p c then takeN p n' rest else None
      | [] => None
      end
  end.

(** [expect c s] consumes the code unit [c]. *)
Definition expect (c : N) (s : jsstring) : option jsstring :=
  match s with
  | x :: rest => if N.eqb x c then Some rest else None
  | [] => None
  end.

Definition andThen {A B : Type} (o : option A) (f : A -> option B) : option B :=
  match o with
  | Some a => f a
  | None => None
  end.

Notation "o >>= f" := (andThen o f) (at level 50, left associativity).

Definition dash : N := 45.
Definition colon : N := 58.
Definition dot : N := 46.
Definition hash : N := 35.
Definition upperT : N := 84.
Definition upperZ : N := 90.

(** The number a run of decimal digits denotes. *)
Definition decimal (ds : jsstring) : N :=
  fold_left (fun acc c => 10 * acc + (c - 48))%N ds 0%N.

(** [field n s] consumes exactly [n] decimal digits and returns them with
    what follows. *)
Definition field (n : nat) (s : jsstring) : option (jsstring * jsstring) :=
  match takeN digit n s with
  | Some rest => Some (firstn n s, rest)
  | None => None
  end.

(** The lower case of the letters A to Z. *)
Definition lower (c : N) : N :=
  if (65 <=? c)%N && (c <=? 90)%N then (c + 32)%N else c.

End Js.

(** ** The fragment of zod the route modules use *)

Module Zod.
Import Js.

(** The version digit (1 to 8) and the variant digit (8, 9, a or b) of a
    UUID. *)
Definition versionDigit (c : N) : bool := (49 <=? c)%N && (c <=? 56)%N.

Definition variantDigit (c : N) : bool :=
  N.eqb c 56 || N.eqb c 57 || N.eqb c 97 || N.eqb c 98 || N.eqb c 65
  || N.eqb c 66.

(** Five groups of 8, 4, 4, 4 and 12 hexadecimal digits, of which the
    third starts with a version digit and the fourth with a variant
    digit. *)
Definition rfcUuid (s : jsstring) : bool :=
  match
    takeN hexDigit 8 s >>= expect dash >>= takeN hexDigit 4 >>= expect dash
      >>= takeN versionDigit 1 >>= takeN hexDigit 3 >>= expect dash
      >>= takeN variantDigit 1 >>= takeN hexDigit 3 >>= expect dash
      >>= takeN hexDigit 12
  with
  | Some [] => true
  | _ => false
  end.

Definition nilUuid : jsstring :=
  lit "00000000-0000-0000-0000-000000000000"%string.

Definition maxUuid : jsstring :=
  lit "ffffffff-ffff-ffff-ffff-ffffffffffff"%string.

(** [z.string().uuid()], as zod 4 has it: an RFC 9562 UUID of version 1
    to 8, or the nil UUID.  The max UUID, which not every release of zod 4
    accepts, is counted in: the properties below take [isUuid] as what an
    accepted id satisfies, and a version and a variant digit as what
    suffices for an id to be accepted. *)
Definition isUuid (s : jsstring) : bool :=
  rfcUuid s || str_eqb s nilUuid || str_eqb s maxUuid.

(** The Gregorian calendar. *)
Definition leapYear (y : N) : bool :=
  ((y mod 4 =? 0) && negb (y mod 100 =? 0) || (y mod 400 =? 0))%N.

Definition daysInMonth (y mo : N) : N :=
  if (mo =? 2)%N then (if leapYear y then 29 else 28)%N
  else if ((mo =? 4) || (mo =? 6) || (mo =? 9) || (mo =? 11))%N then 30%N
  else if ((1 <=? mo) && (mo <=? 12))%N then 31%N
  else 0%N.

(** A day that exists: [y], [mo] and [d] are the digits of the year, the
    month and the day. *)
Definition validDate (y mo d : jsstring) : bool :=
  ((1 <=? decimal d) && (decimal d <=? daysInMonth (decimal y) (decimal mo)))%N.

Definition validTime (h mi : jsstring) : bool :=
  ((decimal h <=? 23) && (decimal mi <=? 59))%N.

(** The optional fraction of a second: a dot and at least one digit. *)
Fixpoint digits (s : jsstring) : jsstring :=
  match s with
  | c :: rest => if digit c then digits rest else s
  | [] => []
  end.

Definition fraction (s : jsstring) : option jsstring :=
  match s with
  | c :: d :: rest =>
      if N.eqb c dot then (if digit d then Some (digits rest) else None)
      else Some s
  | _ => Some s
  end.

(** The optional seconds: a colon, two digits up to 59 and the optional
    fraction. *)
Definition seconds (s : jsstring) : option jsstring :=
  match s with
  | c :: rest =>
      if N.eqb c colon then
        field 2 rest >>= fun '(sec, r) =>
        if (decimal sec <=? 59)%N then fraction r else None
      else Some s
  | [] => Some s
  end.

(** [z.string().datetime()]: an ISO 8601 instant in UTC,
    [YYYY-MM-DDTHH:MM(:SS(.s+)?)?Z], of a day that exists, hours up to
    23 and minutes up to 59; no offset and no local time. *)
Definition isDatetime (s : jsstring) : bool :=
  match
    field 4 s >>= fun '(y, s) =>
    expect dash s >>= fun s =>
    field 2 s >>= fun '(mo, s) =>
    expect dash s >>= fun s =>
    field 2 s >>= fun '(d, s) =>
    (if validDate y mo d then expect upperT s else None) >>= fun s =>
    field 2 s >>= fun '(h, s) =>
    expect colon s >>= fun s =>
    field 2 s >>= fun '(mi, s) =>
    (if validTime h mi then seconds s else None) >>= fun s =>
    expect upperZ s
  with
  | Some [] => true
  | _ => false
  end.

(** [/^#[0-9A-Fa-f]{6}$/] *)
Definition isHexColor (s : jsstring) : bool :=
  match expect hash s >>= takeN hexDigit 6 with
  | Some [] => true
  | _ => false
  end.

Inductive strCheck : Type :=
| Min (n : nat)                     (* .min(n)   *)
| Max (n : nat)                     (* .max(n)   *)
| Uuid                              (* .uuid()   *)
| Datetime                          (* .datetime() *)
| Regex (re : jsstring -> bool).    (* .regex(re) *)

Inductive numCheck : Type :=
| NumMin (q : Q).                   (* .min(q)   *)

Inductive schema : Type :=
| ZString (checks : list strCheck)          (* z.string()... *)
| ZNumber (checks : list numCheck)          (* z.number()... *)
| ZBoolean                                  (* z.boolean()   *)
| ZEnum (options : list jsstring)           (* z.enum([...]) *)
| ZArray (item : schema)                    (* z.array(item) *)
| ZOptional (inner : schema)                (* inner.optional() *)
| ZObject (shape : list (jsstring * schema)). (* z.object({...}) *)

Definition strCheckOk (s : jsstring) (c : strCheck) : bool :=
  match c with
  | Min n => Nat.leb n (length s)
  | Max n => Nat.leb (length s) n
  | Uuid => isUuid s
  | Datetime => isDatetime s
  | Regex re => re s
  end.

Definition numCheckOk (q : Q) (c : numCheck) : bool :=
  match c with
  | NumMin m => Qle_bool m q
  end.

(** [schema.safeParse(v).success].  An object schema reads each key of its
    shape from the input and ignores the others. *)
Fixpoint accepts (sc : schema) (v : value) : bool :=
  match sc with
  | ZString checks =>
      match v with
      | VStr s => forallb (strCheckOk s) checks
      | _ => false
      end
  | ZNumber checks =>
      match v with
      | VNum q => forallb (numCheckOk q) checks
      | _ => false
      end
  | ZBoolean =>
      match v with
      | VBool _ => true
      | _ => false
      end
  | ZEnum options =>
      match v with
      | VStr s => existsb (str_eqb s) options
      | _ => false
      end
  | ZArray item =>
      match v with
      | VArr items => forallb (accepts item) items
      | _ => false
      end
  | ZOptional inner =>
      match v with
      | VUndefined => true
      | _ => accepts inner v
      end
  | ZObject shape =>
      match v with
      | VObj fields =>
          forallb (fun entry => accepts (snd entry) (prop (fst entry) fields))
                  shape
      | _ => false
      end
  end.

End Zod.

(** ** Express routers *)

Module Express.
Import Js Zod.

Inductive method : Type := GET | HEAD | POST | PUT | PATCH | DELETE | OPTIONS.

(** Whether a route registered for [route] handles a request of method
    [m]: its own method, and [HEAD] for a [GET] route. *)
Definition handlesMethod (route m : method) : bool :=
  match route, m with
  | GET, GET | GET, HEAD | HEAD, HEAD | POST, POST | PUT, PUT
  | PATCH, PATCH | DELETE, DELETE | OPTIONS, OPTIONS => true
  | _, _ => false
  end.

(** A request as a router sees it: the path below the mount point, split at
    the slashes, and the parsed JSON body. *)
Record request : Type := mkRequest {
  reqMethod : method;
  reqPath : list jsstring;
  reqHeaders : list (jsstring * jsstring);
  reqParams : list (jsstring * jsstring);
  reqBody : value
}.

Definition withParams (req : request) (ps : list (jsstring * jsstring)) : request :=
  mkRequest (reqMethod req) (reqPath req) (reqHeaders req) ps (reqBody req).

(** [req.params] as the object a params schema is run on. *)
Definition paramsObject (ps : list (jsstring * jsstring)) : value :=
  VObj (map (fun kv => (fst kv, VStr (snd kv))) ps).

(** A route path: literal segments and [:name] parameters. *)
Inductive segment : Type :=
| Lit (s : jsstring)
| Param (name : jsstring).

Definition pattern : Type := list segment.

(** A parameter matches one non-empty path segment; a literal segment is
    compared without regard to case, a [Router()] being created without
    the [caseSensitive] option. *)
Fixpoint matchPath (pat : pattern) (path : list jsstring)
  : option (list (jsstring * jsstring)) :=
  match pat, path with
  | [], [] => Some []
  | Lit s :: pat', x :: path' =>
      if str_eqb (map lower s) (map lower x) then matchPath pat' path'
      else None
  | Param name :: pat', x :: path' =>
      match x with
      | [] => None
      | _ :: _ =>
          match matchPath pat' path' with
          | Some ps => Some ((name, x) :: ps)
          | None => None
          end
      end
  | _, _ => None
  end.

(** The middleware the route modules import. *)
Inductive middleware : Type :=
| authenticateToken
| validateBody (sc : schema)
| validateParams (sc : schema).

(** A layer of a router's stack: [router.use(m)] or
    [router.METHOD(path, ...middleware, handler)]. *)
Inductive layer (H : Type) : Type :=
| Use (m : middleware)
| Route (meth : method) (pat : pattern) (stack : list middleware) (handler : H).

Arguments Use {H} m.
Arguments Route {H} meth pat stack handler.

Definition router (H : Type) : Type := list (layer H).

(** How a request leaves a router: it reaches a handler, a middleware ends
    it, the router answers an [OPTIONS] request itself with the methods of
    the routes on its path (the [Allow] header, whose order is not
    modelled), or no route handles it and it is left to the application. *)
Inductive outcome (H : Type) : Type :=
| Reached (handler : H) (req : request)
| Rejected (by_ : middleware)
| Allowed (methods : list method)
| Unmatched.

Arguments Reached {H} handler req.
Arguments Rejected {H} by_.
Arguments Allowed {H} methods.
Arguments Unmatched {H}.

Definition method_eqb (a b : method) : bool :=
  match a, b with
  | GET, GET | HEAD, HEAD | POST, POST | PUT, PUT | PATCH, PATCH
  | DELETE, DELETE | OPTIONS, OPTIONS => true
  | _, _ => false
  end.

(** The methods a route answers. *)
Definition routeMethods (meth : method) : list method :=
  match meth with
  | GET => [GET; HEAD]
  | m => [m]
  end.

Fixpoint appendMethods (allow ms : list method) : list method :=
  match ms with
  | [] => allow
  | m :: rest =>
      appendMethods
        (if existsb (method_eqb m) allow then allow else allow ++ [m]) rest
  end.

(** An [OPTIONS] request collects the methods of every route on its path
    that does not handle it. *)
Definition options (allow : list method) (meth : method) (pat : pattern)
    (req : request) : list method :=
  match reqMethod req, matchPath pat (reqPath req) with
  | OPTIONS, Some _ => appendMethods allow (routeMethods meth)
  | _, _ => allow
  end.

Section Dispatch.

(** Whether [authenticateToken] calls [next()] on a request. *)
Variable authenticated : request -> bool.

(** Modelled from the spec: the middleware of [src/middleware/validation.ts]
    and [src/middleware/auth.ts], which are not part of the sources at hand.
    [validateBody(schema)] and [validateParams(schema)] carry out the
    "request schema checks" of the HTTP layer: they run the schema on
    [req.body], respectively [req.params], and call [next()] only when it
    succeeds.  [authenticateToken] calls [next()] only for a request it
    authenticates. *)
Definition passes (m : middleware) (req : request) : bool :=
  match m with
  | authenticateToken => authenticated req
  | validateBody sc => accepts sc (reqBody req)
  | validateParams sc => accepts sc (paramsObject (reqParams req))
  end.

(** The first middleware of a route's stack that does not call [next()]. *)
Fixpoint firstFailing (stack : list middleware) (req : request)
  : option middleware :=
  match stack with
  | [] => None
  | m :: rest => if passes m req then firstFailing rest req else Some m
  end.

(** Layers are tried in the order they were registered; [allow] holds
    the methods an [OPTIONS] request has collected so far. *)
Fixpoint dispatchFrom {H : Type} (allow : list method) (r : router H)
    (req : request) : outcome H :=
  match r with
  | [] =>
      match allow with
      | [] => Unmatched
      | _ :: _ => Allowed allow
      end
  | Use m :: rest =>
      if passes m req then dispatchFrom allow rest req else Rejected m
  | Route meth pat stack handler :: rest =>
      if handlesMethod meth (reqMethod req) then
        match matchPath pat (reqPath req) with
        | Some ps =>
            let req' := withParams req ps in
            match firstFailing stack req' with
            | Some m => Rejected m
            | None => Reached handler req'
            end
        | None => dispatchFrom allow rest req
        end
      else dispatchFrom (options allow meth pat req) rest req
  end.

Definition dispatch {H : Type} (r : router H) (req : request) : outcome H :=
  dispatchFrom [] r req.

End Dispatch.

End Express.

(** ** [src/routes/protocolRoutes.ts] *)

Module ProtocolRoutes.
Import Js Zod Express.
Local Open Scope string_scope.

Definition frequencyNames : list jsstring :=
  [lit "DAILY"; lit "WEEKLY"; lit "MONTHLY"; lit "SHIFT_START"; lit "SHIFT_END"].

Definition createProtocolSchema : schema :=
  ZObject
    [ (lit "name", ZString [Min 3; Max 200]);
      (lit "description", ZOptional (ZString []));
      (lit "frequency", ZEnum frequencyNames);
      (lit "targetCount", ZNumber [NumMin 1]);
      (lit "zoneIds", ZOptional (ZArray (ZString []))) ].

Definition updateProtocolSchema : schema :=
  ZObject
    [ (lit "name", ZOptional (ZString [Min 3; Max 200]));
      (lit "description", ZOptional (ZString []));
      (lit "frequency", ZOptional (ZEnum frequencyNames));
      (lit "targetCount", ZOptional (ZNumber [NumMin 1]));
      (lit "isActive", ZOptional ZBoolean);
      (lit "zoneIds", ZOptional (ZArray (ZString []))) ].

Definition protocolParamsSchema : schema :=
  ZObject [ (lit "id", ZString [Uuid]) ].

Definition createComplianceLogSchema : schema :=
  ZObject
    [ (lit "completionDate", ZOptional (ZString [Datetime]));
      (lit "note", ZOptional (ZString [Max 500])) ].

(** The handlers imported from the protocol controller. *)
Inductive controller : Type :=
| createProtocol
| getProtocols
| updateProtocol
| deleteProtocol
| getProtocolById
| createComplianceLog
| getComplianceLogs.

Definition router : Express.router controller :=
  [ Use authenticateToken;
    Route GET [] [] getProtocols;
    Route POST [] [validateBody createProtocolSchema] createProtocol;
    Route GET [Param (lit "id")] [validateParams protocolParamsSchema]
      getProtocolById;
    Route PATCH [Param (lit "id")]
      [validateParams protocolParamsSchema; validateBody updateProtocolSchema]
      updateProtocol;
    Route DELETE [Param (lit "id")] [validateParams protocolParamsSchema]
      deleteProtocol;
    Route POST [Param (lit "id"); Lit (lit "compliance-logs")]
      [validateParams protocolParamsSchema;
       validateBody createComplianceLogSchema]
      createComplianceLog;
    Route GET [Param (lit "id"); Lit (lit "compliance-logs")]
      [validateParams protocolParamsSchema]
      getComplianceLogs ].

End ProtocolRoutes.

(** ** [src/routes/hazardZoneRoutes.ts] *)

Module HazardZoneRoutes.
Import Js Zod Express.
Local Open Scope string_scope.

Definition createHazardZoneSchema : schema :=
  ZObject
    [ (lit "name", ZString [Min 3; Max 50]);
      (lit "color", ZOptional (ZString [Regex isHexColor])) ].

Definition updateHazardZoneSchema : schema :=
  ZObject
    [ (lit "name", ZOptional (ZString [Min 3; Max 50]));
      (lit "color", ZOptional (ZString [Regex isHexColor])) ].

Definition hazardZoneParamsSchema : schema :=
  ZObject [ (lit "id", ZString [Uuid]) ].

(** The handlers imported from the hazard-zone controller. *)
Inductive controller : Type :=
| createHazardZone
| getHazardZones
| getHazardZoneById
| updateHazardZone
| deleteHazardZone.

Definition router : Express.router controller :=
  [ Use authenticateToken;
    Route GET [] [] getHazardZones;
    Route POST [] [validateBody createHazardZoneSchema] createHazardZone;
    Route GET [Param (lit "id")] [validateParams hazardZoneParamsSchema]
      getHazardZoneById;
    Route PATCH [Param (lit "id")]
      [validateParams hazardZoneParamsSchema;
       validateBody updateHazardZoneSchema]
      updateHazardZone;
    Route DELETE [Param (lit "id")] [validateParams hazardZoneParamsSchema]
      deleteHazardZone ].

End HazardZoneRoutes.

(** ** The compliance engine *)

Module Engine.
Import Js.
Local Open Scope Z_scope.

(** *** Data model (specification, section 3) *)

(** An instant is a number of nanoseconds since the Unix epoch. *)
Definition instant : Type := Z.

Definition NS_PER_HOUR : Z := 3600 * 1000000000.
Definition NS_PER_DAY : Z := 24 * NS_PER_HOUR.

Inductive Frequency : Type :=
| DAILY
| WEEKLY
| MONTHLY
| SHIFT_START
| SHIFT_END.

Record Protocol : Type := mkProtocol {
  protocolId : jsstring;
  name : jsstring;
  frequency : Frequency;
  targetCount : Z;
  isActive : bool;
  zoneIds : list jsstring
}.

Record ComplianceLog : Type := mkLog {
  logId : jsstring;
  logProtocolId : jsstring;
  completionDate : instant;
  note : option jsstring;
  createdAt : instant
}.

(** What the specification leaves to configuration: the time zone (as its
    offset from UTC, in nanoseconds), the first day of the week (0 is
    Monday), the clock-skew tolerance of the validator and its maximum
    backfill window. *)
Record Config : Type := mkConfig {
  zoneOffset : Z;
  firstDayOfWeek : Z;
  clockSkewTolerance : Z;
  maxBackfill : option Z
}.

(** The defaults the specification names: weeks start on Monday, no
    tolerance, unbounded backfill. *)
Definition defaultConfig : Config := mkConfig 0 0 0 None.

(** *** Calendar arithmetic *)

(** The local calendar day an instant falls on, counted from 1970-01-01,
    and the instant a local day starts at. *)
Definition dayOf (cfg : Config) (t : instant) : Z :=
  (t + zoneOffset cfg) / NS_PER_DAY.

Definition startOfDay (cfg : Config) (d : Z) : instant :=
  d * NS_PER_DAY - zoneOffset cfg.

(** 1970-01-01 is a Thursday, so day [-3] is a Monday: week [k] starts
    [firstDayOfWeek] days after the Monday of day [7 * k - 3]. *)
Definition weekOf (cfg : Config) (d : Z) : Z :=
  (d + 3 - firstDayOfWeek cfg) / 7.

Definition weekFirstDay (cfg : Config) (k : Z) : Z :=
  7 * k - 3 + firstDayOfWeek cfg.

(** Months of the proleptic Gregorian calendar are numbered from March of
    year 0, so that a leap day is the last day of its year: month
    [12 * y + mp] is the [mp]-th month after March of year [y]. *)
Definition monthIndex (year month : Z) : Z :=
  if month <=? 2 then 12 * (year - 1) + (month + 9)
  else 12 * year + (month - 3).

(** The day number of the first day of a month. *)
Definition monthFirstDay (j : Z) : Z :=
  let y := j / 12 in
  let mp := j mod 12 in
  365 * y + y / 4 - y / 100 + y / 400 + (153 * mp + 2) / 5 - 719468.

(** The month a day falls in: 400 years are 4800 months and 146097 days,
    which places the month within one of the estimate. *)
Definition monthOf (d : Z) : Z :=
  let j0 := 4800 * (d + 719468) / 146097 in
  if monthFirstDay (j0 + 1) <=? d then j0 + 1
  else if d <? monthFirstDay j0 then j0 - 1
  else j0.

(** *** Window Calculator (section 4.1) *)

Definition Window : Type := (instant * instant)%type.

Definition windowStart (w : Window) : instant := fst w.
Definition windowEnd (w : Window) : instant := snd w.
Definition windowLength (w : Window) : Z := windowEnd w - windowStart w.

(** Membership in the half-open interval [[windowStart, windowEnd)]. *)
Definition inWindow (w : Window) (t : instant) : bool :=
  (windowStart w <=? t) && (t <? windowEnd w).

(** Modelled from the spec: the Window Calculator, whose code is not part
    of the sources at hand.  [DAILY] is the local calendar day of the
    reference instant, [WEEKLY] its calendar week, [MONTHLY] its calendar
    month; [SHIFT_START] and [SHIFT_END] are one day long and start at the
    shift boundary hour instead of local midnight. *)
Definition windowFor (cfg : Config) (f : Frequency) (referenceInstant : instant)
    (shiftBoundaryHour : Z) : Window :=
  match f with
  | DAILY =>
      let d := dayOf cfg referenceInstant in
      (startOfDay cfg d, startOfDay cfg (d + 1))
  | WEEKLY =>
      let k := weekOf cfg (dayOf cfg referenceInstant) in
      (startOfDay cfg (weekFirstDay cfg k),
       startOfDay cfg (weekFirstDay cfg (k + 1)))
  | MONTHLY =>
      let j := monthOf (dayOf cfg referenceInstant) in
      (startOfDay cfg (monthFirstDay j), startOfDay cfg (monthFirstDay (j + 1)))
  | SHIFT_START | SHIFT_END =>
      let shift := shiftBoundaryHour * NS_PER_HOUR in
      let d := dayOf cfg (referenceInstant - shift) in
      (startOfDay cfg d + shift, startOfDay cfg (d + 1) + shift)
  end.

(** The window immediately preceding [w]: the one its last instant before
    [windowStart w] falls in. *)
Definition previousWindow (cfg : Config) (f : Frequency) (w : Window)
    (shiftBoundaryHour : Z) : Window :=
  windowFor cfg f (windowStart w - 1) shiftBoundaryHour.

(** The window immediately following [w]: the one [windowEnd w] falls in. *)
Definition nextWindow (cfg : Config) (f : Frequency) (w : Window)
    (shiftBoundaryHour : Z) : Window :=
  windowFor cfg f (windowEnd w) shiftBoundaryHour.

(** The windows of a frequency are numbered: [windowIndex] is the number
    of the day, week or month an instant falls in, [windowBoundary] the
    instant at which the window of a given number starts. *)
Definition windowIndex (cfg : Config) (f : Frequency) (shiftBoundaryHour : Z)
    (t : instant) : Z :=
  match f with
  | DAILY => dayOf cfg t
  | WEEKLY => weekOf cfg (dayOf cfg t)
  | MONTHLY => monthOf (dayOf cfg t)
  | SHIFT_START | SHIFT_END => dayOf cfg (t - shiftBoundaryHour * NS_PER_HOUR)
  end.

Definition windowBoundary (cfg : Config) (f : Frequency) (shiftBoundaryHour : Z)
    (k : Z) : instant :=
  match f with
  | DAILY => startOfDay cfg k
  | WEEKLY => startOfDay cfg (weekFirstDay cfg k)
  | MONTHLY => startOfDay cfg (monthFirstDay k)
  | SHIFT_START | SHIFT_END =>
      startOfDay cfg k + shiftBoundaryHour * NS_PER_HOUR
  end.

(** *** Log Validator (section 4.2) *)

Inductive RejectReason : Type := FUTURE_DATE | TOO_OLD.

Inductive Validation : Type :=
| Ok
| Rejected (reason : RejectReason).

(** Modelled from the spec: the Log Validator, whose code is not part of
    the sources at hand.  A completion date later than [now] plus the
    tolerance is a [FUTURE_DATE]; one older than the maximum backfill
    window, when one is configured, is [TOO_OLD]. *)
Definition validate (cfg : Config) (completion now : instant) : Validation :=
  if now + clockSkewTolerance cfg <? completion then Rejected FUTURE_DATE
  else
    match maxBackfill cfg with
    | Some age => if completion <? now - age then Rejected TOO_OLD else Ok
    | None => Ok
    end.

(** *** Compliance Evaluator (section 4.3) *)

Inductive ComplianceState : Type :=
| COMPLIANT
| PENDING
| OVERDUE
| NOT_YET_DUE
| INACTIVE.

Inductive Evaluation : Type :=
| State (s : ComplianceState)
| ConfigurationError.

(** Step 2: the logs whose completion date falls in a window are counted,
    duplicates included. *)
Definition countIn (w : Window) (logs : list ComplianceLog) : Z :=
  Z.of_nat (List.length (filter (fun l => inWindow w (completionDate l)) logs)).

(** Modelled from the spec: the Compliance Evaluator, whose code is not part
    of the sources at hand.  An inactive protocol is [INACTIVE]; a target
    below 1 is a configuration error; otherwise the logs of the current
    window are counted (steps 1 to 3), and a protocol with no completion in
    the current window is [OVERDUE] when the window that closed last missed
    its target (step 4).  The specification leaves [NOT_YET_DUE] relative
    to the creation of a protocol open; it is not produced here. *)
Definition evaluate (cfg : Config) (shiftBoundaryHour : Z) (p : Protocol)
    (logs : list ComplianceLog) (referenceInstant : instant) : Evaluation :=
  if negb (isActive p) then State INACTIVE
  else if targetCount p <? 1 then ConfigurationError
  else
    let current := windowFor cfg (frequency p) referenceInstant shiftBoundaryHour in
    let count := countIn current logs in
    if targetCount p <=? count then State COMPLIANT
    else if 0 <? count then State PENDING
    else
      let previous := previousWindow cfg (frequency p) current shiftBoundaryHour in
      if countIn previous logs <? targetCount p then State OVERDUE
      else State PENDING.

End Engine.

(** ** Sample requests *)

Module Samples.
Import Js Zod Express.
Local Open Scope string_scope.

(** An [authenticateToken] that lets through the requests carrying an
    [authorization] header. *)
Definition hasAuthorization (req : request) : bool :=
  existsb (fun kv => str_eqb (fst kv) (lit "authorization")) (reqHeaders req).

Definition bearer : list (jsstring * jsstring) :=
  [(lit "authorization", lit "Bearer token")].

Definition sampleId : jsstring := lit "123e4567-e89b-12d3-a456-426614174000".

(** [{ name, frequency: "DAILY", targetCount }] *)
Definition protocolBody (name : jsstring) (targetCount : Q) : value :=
  VObj [ (lit "name", VStr name);
         (lit "frequency", VStr (lit "DAILY"));
         (lit "targetCount", VNum targetCount) ].

(** [POST /] with [targetCount: 1.5] *)
Definition fractionalCreate : request :=
  mkRequest POST [] bearer [] (protocolBody (lit "Morning PPE Inspection") (3 # 2)).

(** [PATCH /:id] with [{ targetCount: 1.5 }] *)
Definition fractionalUpdate : request :=
  mkRequest PATCH [sampleId] bearer [] (VObj [ (lit "targetCount", VNum (3 # 2)) ]).

(** [{ ..., zoneIds: ["not-a-uuid"] }] *)
Definition looseZonesBody : value :=
  VObj [ (lit "name", VStr (lit "Morning PPE Inspection"));
         (lit "frequency", VStr (lit "DAILY"));
         (lit "targetCount", VNum 1);
         (lit "zoneIds", VArr [VStr (lit "not-a-uuid")]) ].

Definition looseZonesCreate : request :=
  mkRequest POST [] bearer [] looseZonesBody.

Definition looseZonesUpdate : request :=
  mkRequest PATCH [sampleId] bearer []
    (VObj [ (lit "zoneIds", VArr [VStr (lit "not-a-uuid")]) ]).

(** [POST /] with a valid body. *)
Definition goodCreate : request :=
  mkRequest POST [] bearer [] (protocolBody (lit "Morning PPE Inspection") 1).

(** [GET /] without credentials. *)
Definition anonymousList : request :=
  mkRequest GET [] [] [] VUndefined.


(** Noon of 1970-01-01, and an instant of 2024-02-29, in UTC. *)
Definition noon : Engine.instant := (12 * Engine.NS_PER_HOUR)%Z.

Definition leapDay : Engine.instant := (19782 * Engine.NS_PER_DAY + 5)%Z.

(** A daily protocol and a log completed at the midnight that ends
    1970-01-01. *)
Definition dailyProtocol : Engine.Protocol :=
  Engine.mkProtocol sampleId (lit "Morning PPE Inspection") Engine.DAILY 1 true [].

Definition midnightLog : Engine.ComplianceLog :=
  Engine.mkLog (lit "log-2") sampleId Engine.NS_PER_DAY None Engine.NS_PER_DAY.

End Samples.

(** ** The users router appended to [src/routes/protocolRoutes.ts] *)

Module UserRoutes.
Import Js Zod Express.
Local Open Scope string_scope.

(** The handlers are written in place; they are named after their route. *)
Inductive handler : Type :=
| listUsers      (* router.get('/', ...)       *)
| getUser        (* router.get('/:id', ...)    *)
| putUser        (* router.put('/:id', ...)    *)
| deleteUser.    (* router.delete('/:id', ...) *)

Definition router : Express.router handler :=
  [ Use authenticateToken;
    Route GET [] [] listUsers;
    Route GET [Param (lit "id")] [] getUser;
    Route PUT [Param (lit "id")] [] putUser;
    Route DELETE [Param (lit "id")] [] deleteUser ].



End UserRoutes.

(** ** Shapes of values *)

Module Shapes.
Import Js Zod.

Definition absentOr (P : value -> Prop) (v : value) : Prop :=
  v = VUndefined \/ P v.

Definition aString (v : value) : Prop := exists s, v = VStr s.

Definition aStringOfLength (lo hi : nat) (v : value) : Prop :=
  exists s, v = VStr s /\ (lo <= List.length s <= hi)%nat.

Definition oneOf (options : list jsstring) (v : value) : Prop :=
  exists s, v = VStr s /\ In s options.

Definition aNumberAtLeast (m : Q) (v : value) : Prop :=
  exists q, v = VNum q /\ (m <= q)%Q.

Definition aBoolean (v : value) : Prop := exists b, v = VBool b.

Definition anArrayOfStrings (v : value) : Prop :=
  exists items, v = VArr items /\ Forall aString items.

(** [#] and six hexadecimal digits. *)
Definition hexColorString (s : jsstring) : Prop :=
  exists ds, s = hash :: ds /\ List.length ds = 6%nat /\
             Forall (fun c => hexDigit c = true) ds.

Definition aHexColor (v : value) : Prop :=
  exists s, v = VStr s /\ hexColorString s.

(** A group of [n] hexadecimal digits, and the five groups of a UUID
    joined by dashes. *)
Definition hexGroup (n : nat) (g : jsstring) : Prop :=
  List.length g = n /\ Forall (fun c => hexDigit c = true) g.

Definition uuidString (s : jsstring) : Prop :=
  exists a b c d e,
    s = a ++ dash :: b ++ dash :: c ++ dash :: d ++ dash :: e /\
    hexGroup 8 a /\ hexGroup 4 b /\ hexGroup 4 c /\ hexGroup 4 d /\
    hexGroup 12 e.

(** Such a string whose third group starts with a version digit and
    whose fourth group starts with a variant digit. *)
Definition rfcUuidString (s : jsstring) : Prop :=
  exists a b v c w d e,
    s = a ++ dash :: b ++ dash :: v :: c ++ dash :: w :: d ++ dash :: e /\
    hexGroup 8 a /\ hexGroup 4 b /\ versionDigit v = true /\ hexGroup 3 c /\
    variantDigit w = true /\ hexGroup 3 d /\ hexGroup 12 e.

(** A group of [n] decimal digits. *)
Definition digitGroup (n : nat) (g : jsstring) : Prop :=
  List.length g = n /\ Forall (fun c => digit c = true) g.

(** Nothing, or a dot and at least one digit. *)
Definition fractionString (f : jsstring) : Prop :=
  f = [] \/
  exists d ds, f = dot :: d :: ds /\ Forall (fun c => digit c = true) (d :: ds).

(** Nothing, or a colon, two digits up to 59 and a fraction. *)
Definition secondsString (t : jsstring) : Prop :=
  t = [] \/
  exists sec f, t = colon :: sec ++ f /\ digitGroup 2 sec /\
                (decimal sec <= 59)%N /\ fractionString f.

(** [YYYY-MM-DDTHH:MM], optional seconds and the letter Z, of a month
    from 1 to 12, a day of that month, an hour up to 23 and a minute up
    to 59. *)
Definition datetimeString (s : jsstring) : Prop :=
  exists y mo d h mi t,
    s = y ++ dash :: mo ++ dash :: d ++ upperT :: h ++ colon :: mi
          ++ t ++ [upperZ] /\
    digitGroup 4 y /\ digitGroup 2 mo /\ digitGroup 2 d /\
    digitGroup 2 h /\ digitGroup 2 mi /\
    (1 <= decimal mo <= 12)%N /\
    (1 <= decimal d <= daysInMonth (decimal y) (decimal mo))%N /\
    (decimal h <= 23)%N /\ (decimal mi <= 59)%N /\
    secondsString t.

(** The names a schema declares. *)
Definition keys (shape : list (jsstring * schema)) : list jsstring :=
  map fst shape.

Definition shapeOf (sc : schema) : list (jsstring * schema) :=
  match sc with
  | ZObject shape => shape
  | _ => []
  end.

End Shapes.

(** ** What each route asks of a request *)

Module RouteConditions.
Import Js Zod Express.
Local Open Scope string_scope.









End RouteConditions.

(** ** More sample requests *)

Module Requests.
Import Js Zod Express.
Local Open Scope string_scope.

(** [{ name: "High Voltage Area", color: "#dc2626" }] *)
Definition zoneBody : value :=
  VObj [ (lit "name", VStr (lit "High Voltage Area"));
         (lit "color", VStr (lit "#dc2626")) ].

(** [PATCH /:id] with [{ description: null }] *)
Definition nullDescription : list (jsstring * value) :=
  [ (lit "description", VNull) ].


(** [{ name, frequency, targetCount, isActive: "yes" }] *)
Definition activeAsText : value :=
  VObj [ (lit "name", VStr (lit "Morning PPE Inspection"));
         (lit "frequency", VStr (lit "DAILY"));
         (lit "targetCount", VNum 1);
         (lit "isActive", VStr (lit "yes")) ].

(** The body schemas of the two route modules. *)
Definition bodySchemas : list schema :=
  [ ProtocolRoutes.createProtocolSchema; ProtocolRoutes.updateProtocolSchema;
    ProtocolRoutes.createComplianceLogSchema;
    HazardZoneRoutes.createHazardZoneSchema;
    HazardZoneRoutes.updateHazardZoneSchema ].



End Requests.

(** * Properties *)

(** ** Strings and schemas *)

Module SchemaFacts.
Import Js Zod.
Local Open Scope string_scope.

Lemma str_eqb_refl (s : jsstring) : str_eqb s s = true.
Proof.
  induction s as [|c s IH]; simpl; [reflexivity|].
  now rewrite N.eqb_refl.
Qed.

Lemma str_eqb_eq (a b : jsstring) : str_eqb a b = true <-> a = b.
Proof.
  split.
  - revert b; induction a as [|x a IH]; intros [|y b]; simpl; try easy.
    rewrite andb_true_iff, N.eqb_eq. intros [-> H]. now rewrite (IH b H).
  - intros ->. apply str_eqb_refl.
Qed.

(** The string formats on some inputs. *)
Example uuid_format :
  isUuid (lit "123E4567-e89b-12d3-a456-426614174000") = true /\
  isUuid (lit "123e4567-e89b-12d3-a456-42661417400") = false /\
  isUuid (lit "123e4567e89b-12d3-a456-426614174000") = false /\
  isUuid (lit "not-a-uuid") = false.
Proof. repeat split. Qed.

Example datetime_format :
  isDatetime (lit "2024-01-01T10:00:00Z") = true /\
  isDatetime (lit "2024-01-01T10:00:00.123Z") = true /\
  isDatetime (lit "2024-01-01T10:00:00+02:00") = false /\
  isDatetime (lit "2024-01-01") = false.
Proof. repeat split. Qed.

(** A string schema accepts the strings that pass all its checks. *)
Lemma accepts_string (checks : list strCheck) (v : value) :
  accepts (ZString checks) v = true <->
  exists s, v = VStr s /\ forallb (strCheckOk s) checks = true.
Proof.
  split.
  - destruct v; simpl; try discriminate. intros H. now exists s.
  - intros (s & -> & H). exact H.
Qed.

Lemma accepts_number (checks : list numCheck) (v : value) :
  accepts (ZNumber checks) v = true <->
  exists q, v = VNum q /\ forallb (numCheckOk q) checks = true.
Proof.
  split.
  - destruct v; simpl; try discriminate. intros H. now exists q.
  - intros (q & -> & H). exact H.
Qed.

(** An optional schema accepts [undefined] and what its inner schema
    accepts. *)
Lemma accepts_optional (inner : schema) (v : value) :
  accepts (ZOptional inner) v = true <->
  v = VUndefined \/ accepts inner v = true.
Proof.
  destruct v; simpl; split; intros H; auto;
    destruct H as [H|H]; try discriminate; auto.
Qed.

(** An object schema accepts the objects whose properties its shape
    accepts. *)
Lemma accepts_object (shape : list (jsstring * schema)) (v : value) :
  accepts (ZObject shape) v = true <->
  exists fields, v = VObj fields /\
    forall key sc, In (key, sc) shape -> accepts sc (prop key fields) = true.
Proof.
  split.
  - destruct v; simpl; try discriminate. intros H. exists fields. split; [reflexivity|].
    intros key sc Hin. rewrite forallb_forall in H. exact (H (key, sc) Hin).
  - intros (fields & -> & H). simpl. apply forallb_forall.
    intros [key sc] Hin. simpl. now apply H.
Qed.

End SchemaFacts.

(** ** Dispatch *)

Module DispatchFacts.
Import Js Zod Express.

Section Reached.

Variable authenticated : request -> bool.
Variable H : Type.

Lemma firstFailing_none (stack : list middleware) (req : request) :
  firstFailing authenticated stack req = None ->
  forall m, In m stack -> passes authenticated m req = true.
Proof.
  induction stack as [|m0 stack IH]; simpl; intros Hnone m Hin; [contradiction|].
  destruct (passes authenticated m0 req) eqn:E; [|discriminate].
  destruct Hin as [<-|Hin]; [exact E|now apply IH].
Qed.

Lemma dispatchFrom_reached (allow : list method) (r : router H)
    (req req' : request) (h : H) :
  dispatchFrom authenticated allow r req = Reached h req' ->
  exists meth pat stack ps,
    In (Route meth pat stack h) r /\
    handlesMethod meth (reqMethod req) = true /\
    matchPath pat (reqPath req) = Some ps /\
    req' = withParams req ps /\
    forall m, In m stack -> passes authenticated m req' = true.
Proof.
  revert allow. induction r as [|l r IH]; intros allow; simpl.
  - destruct allow; discriminate.
  - destruct l as [m|meth pat stack h0].
    + destruct (passes authenticated m req); [|discriminate].
      intros Hd. destruct (IH _ Hd) as (meth & pat & stack & ps & Hin & Hrest).
      exists meth, pat, stack, ps. split; [now right|exact Hrest].
    + destruct (handlesMethod meth (reqMethod req)) eqn:Em.
      * destruct (matchPath pat (reqPath req)) as [ps|] eqn:Ep.
        -- destruct (firstFailing authenticated stack (withParams req ps)) eqn:Ef;
             [discriminate|].
           intros Hd. injection Hd as -> <-.
           exists meth, pat, stack, ps. repeat split; auto.
           now apply firstFailing_none.
        -- intros Hd.
           destruct (IH _ Hd) as (meth' & pat' & stack' & ps & Hin & Hrest).
           exists meth', pat', stack', ps. split; [now right|exact Hrest].
      * intros Hd.
        destruct (IH _ Hd) as (meth' & pat' & stack' & ps & Hin & Hrest).
        exists meth', pat', stack', ps. split; [now right|exact Hrest].
Qed.

(** A request that reaches a handler matched one of the router's routes
    and passed every middleware of that route's stack. *)
Lemma dispatch_reached (r : router H) (req req' : request) (h : H) :
  dispatch authenticated r req = Reached h req' ->
  exists meth pat stack ps,
    In (Route meth pat stack h) r /\
    handlesMethod meth (reqMethod req) = true /\
    matchPath pat (reqPath req) = Some ps /\
    req' = withParams req ps /\
    forall m, In m stack -> passes authenticated m req' = true.
Proof.
  apply dispatchFrom_reached.
Qed.

(** Dispatch, one layer at a time. *)
Lemma dispatchFrom_use (allow : list method) (m : middleware)
    (rest : router H) (req : request) :
  dispatchFrom authenticated allow (Use m :: rest) req =
  if passes authenticated m req then dispatchFrom authenticated allow rest req
  else Rejected m.
Proof. reflexivity. Qed.

Lemma dispatchFrom_route (allow : list method) (meth : method) (pat : pattern)
    (stack : list middleware) (h : H) (rest : router H) (req : request) :
  dispatchFrom authenticated allow (Route meth pat stack h :: rest) req =
  if handlesMethod meth (reqMethod req) then
    match matchPath pat (reqPath req) with
    | Some ps =>
        match firstFailing authenticated stack (withParams req ps) with
        | Some m => Rejected m
        | None => Reached h (withParams req ps)
        end
    | None => dispatchFrom authenticated allow rest req
    end
  else dispatchFrom authenticated (options allow meth pat req) rest req.
Proof. reflexivity. Qed.



(** A router whose first layer is [router.use(authenticateToken)] ends
    every request the middleware does not let through. *)
Lemma dispatch_guarded (rest : router H) (req : request) :
  authenticated req = false ->
  dispatch authenticated (Use authenticateToken :: rest) req
  = Rejected authenticateToken.
Proof.
  intros Hno. unfold dispatch. simpl. now rewrite Hno.
Qed.

End Reached.

(** Walks an authenticated request of known method and path through the
    layers of a router, up to the route that takes it or to the end. *)
Ltac walk Hauth Hm Hp :=
  unfold dispatch;
  rewrite dispatchFrom_use; cbn [passes]; rewrite Hauth;
  repeat (rewrite dispatchFrom_route; rewrite ?Hm, ?Hp;
          cbn [handlesMethod matchPath]).

(** Runs the middleware of the route that took the request. *)
Ltac run_stack :=
  cbn [firstFailing passes withParams reqParams reqBody].


End DispatchFacts.

(** ** Request validation of the protocol routes *)

Module RequestValidation.
Import Js Zod Express ProtocolRoutes SchemaFacts DispatchFacts.
Local Open Scope string_scope.

(** The routes of the protocol router, by handler. *)
Lemma route_of_createProtocol meth pat stack :
  In (Route meth pat stack createProtocol) router ->
  stack = [validateBody createProtocolSchema].
Proof.
  unfold router. simpl.
  intros Hin; repeat (destruct Hin as [Hin|Hin]; try discriminate; try contradiction).
  now injection Hin as _ _ <-.
Qed.

Lemma route_of_updateProtocol meth pat stack :
  In (Route meth pat stack updateProtocol) router ->
  pat = [Param (lit "id")] /\
  stack = [validateParams protocolParamsSchema; validateBody updateProtocolSchema].
Proof.
  unfold router. simpl.
  intros Hin; repeat (destruct Hin as [Hin|Hin]; try discriminate; try contradiction).
  injection Hin as _ <- <-. now split.
Qed.

(** What [createProtocolSchema] accepts has a name of 3 to 200 code units. *)
Lemma createProtocolSchema_name (body : value) :
  accepts createProtocolSchema body = true ->
  exists fields name,
    body = VObj fields /\ prop (lit "name") fields = VStr name /\
    (3 <= List.length name <= 200)%nat.
Proof.
  intros Hacc. apply accepts_object in Hacc as (fields & -> & Hshape).
  assert (Hname := Hshape (lit "name") (ZString [Min 3; Max 200])
                          (or_introl eq_refl)).
  apply accepts_string in Hname as (name & Hprop & Hchecks).
  exists fields, name. repeat split; auto.
  - simpl in Hchecks. apply andb_prop in Hchecks as [Hmin _].
    now apply Nat.leb_le.
  - simpl in Hchecks. apply andb_prop in Hchecks as [_ Hmax].
    apply andb_prop in Hmax as [Hmax _]. now apply Nat.leb_le.
Qed.

(** What [createProtocolSchema] and [updateProtocolSchema] accept as
    [targetCount] is a number not below 1. *)
Lemma createProtocolSchema_targetCount (body : value) :
  accepts createProtocolSchema body = true ->
  exists fields q,
    body = VObj fields /\ prop (lit "targetCount") fields = VNum q /\ (1 <= q)%Q.
Proof.
  intros Hacc. apply accepts_object in Hacc as (fields & -> & Hshape).
  assert (Htc : accepts (ZNumber [NumMin 1]) (prop (lit "targetCount") fields) = true)
    by (apply Hshape; simpl; tauto).
  apply accepts_number in Htc as (q & Hprop & Hchecks).
  exists fields, q. repeat split; auto.
  simpl in Hchecks. apply andb_prop in Hchecks as [Hmin _].
  now apply Qle_bool_iff.
Qed.

(** C8: a request that reaches [createProtocol] carries a body whose
    [name] is a string of at least 3 and at most 200 characters (code
    units, as zod counts them); any other body is turned away before the
    controller. *)
Theorem createProtocol_name_length
    (authenticated : request -> bool) (req req' : request)
    (Hreached : dispatch authenticated router req = Reached createProtocol req') :
  exists fields name,
    reqBody req = VObj fields /\ prop (lit "name") fields = VStr name /\
    (3 <= List.length name <= 200)%nat.
Proof.
  apply dispatch_reached in Hreached
    as (meth & pat & stack & ps & Hin & _ & _ & -> & Hpass).
  apply route_of_createProtocol in Hin as ->.
  specialize (Hpass _ (or_introl eq_refl)). simpl in Hpass.
  now apply createProtocolSchema_name.
Qed.

Lemma createProtocol_name_length_witness :
  exists fields name,
    reqBody Samples.goodCreate = VObj fields /\
    prop (lit "name") fields = VStr name /\
    (3 <= List.length name <= 200)%nat.
Proof.
  apply (createProtocol_name_length Samples.hasAuthorization Samples.goodCreate
           (withParams Samples.goodCreate [])).
  reflexivity.
Defined.

(** An authenticated [POST /] is decided by [createProtocolSchema]. *)
Lemma dispatch_create (authenticated : request -> bool) (req : request) :
  authenticated req = true ->
  reqMethod req = POST -> reqPath req = [] ->
  dispatch authenticated router req =
  if accepts createProtocolSchema (reqBody req)
  then Reached createProtocol (withParams req [])
  else Rejected (validateBody createProtocolSchema).
Proof.
  intros Hauth Hm Hp. unfold router.
  walk Hauth Hm Hp. run_stack.
  now destruct (accepts createProtocolSchema (reqBody req)).
Qed.

(** An authenticated [POST /] whose name has fewer than 3 or more than 200
    code units is ended by [validateBody]. *)
Lemma createProtocol_bad_name_rejected
    (authenticated : request -> bool) (req : request)
    (fields : list (jsstring * value)) (name : jsstring) :
  authenticated req = true ->
  reqMethod req = POST -> reqPath req = [] ->
  reqBody req = VObj fields -> prop (lit "name") fields = VStr name ->
  (List.length name < 3 \/ 200 < List.length name)%nat ->
  dispatch authenticated router req = Rejected (validateBody createProtocolSchema).
Proof.
  intros Hauth Hm Hp Hb Hname Hlen.
  rewrite (dispatch_create _ _ Hauth Hm Hp).
  destruct (accepts createProtocolSchema (reqBody req)) eqn:Hacc; [|reflexivity].
  apply createProtocolSchema_name in Hacc as (fields' & name' & Hb' & Hname' & Hrange).
  rewrite Hb in Hb'. injection Hb' as <-. rewrite Hname in Hname'.
  injection Hname' as <-. lia.
Qed.

(** C1: [targetCount: 1.5] is not an integer, yet the body validation of
    both the create and the update route lets it through to the
    controller: the schemas only ask for a number not below 1. *)
Theorem fractional_targetCount_accepted :
  isInteger (3 # 2) = false /\
  accepts createProtocolSchema (reqBody Samples.fractionalCreate) = true /\
  accepts updateProtocolSchema (reqBody Samples.fractionalUpdate) = true /\
  dispatch Samples.hasAuthorization router Samples.fractionalCreate
  = Reached createProtocol (withParams Samples.fractionalCreate []) /\
  dispatch Samples.hasAuthorization router Samples.fractionalUpdate
  = Reached updateProtocol
      (withParams Samples.fractionalUpdate [(lit "id", Samples.sampleId)]).
Proof.
  repeat split; vm_compute; reflexivity.
Qed.

(** The id of a path that passed [protocolParamsSchema] has the format of
    a UUID. *)
Lemma protocolParams_uuid (ps : list (jsstring * jsstring)) :
  accepts protocolParamsSchema (paramsObject ps) = true ->
  exists id,
    prop (lit "id") (map (fun kv => (fst kv, VStr (snd kv))) ps) = VStr id /\
    isUuid id = true.
Proof.
  intros Hacc. apply accepts_object in Hacc as (fields & Hobj & Hshape).
  injection Hobj as <-.
  assert (Hid := Hshape (lit "id") (ZString [Uuid]) (or_introl eq_refl)).
  apply accepts_string in Hid as (id & Hprop & Hchecks).
  exists id. split; [exact Hprop|].
  simpl in Hchecks. now apply andb_prop in Hchecks as [Huuid _].
Qed.

(** Every route of the protocol router with an [:id] in its path runs
    [validateParams(protocolParamsSchema)]. *)
Lemma protocol_path_id_validated
    (authenticated : request -> bool) (req req' : request) (h : controller) :
  dispatch authenticated router req = Reached h req' ->
  h <> getProtocols -> h <> createProtocol ->
  accepts protocolParamsSchema (paramsObject (reqParams req')) = true.
Proof.
  intros Hreached Hlist Hcreate.
  apply dispatch_reached in Hreached
    as (meth & pat & stack & ps & Hin & _ & _ & -> & Hpass).
  apply (Hpass (validateParams protocolParamsSchema)).
  unfold router in Hin. simpl in Hin.
  repeat (destruct Hin as [Hin|Hin]; try discriminate; try contradiction);
    injection Hin as _ _ <- <-; simpl; tauto.
Qed.

(** C7: the [zoneIds] of a create or update body are only required to be
    strings: a body listing ["not-a-uuid"], which has not the format of a
    UUID, passes validation on both routes and reaches the controller. *)
Theorem zoneIds_not_uuid_validated :
  isUuid (lit "not-a-uuid") = false /\
  accepts createProtocolSchema Samples.looseZonesBody = true /\
  dispatch Samples.hasAuthorization router Samples.looseZonesCreate
  = Reached createProtocol (withParams Samples.looseZonesCreate []) /\
  dispatch Samples.hasAuthorization router Samples.looseZonesUpdate
  = Reached updateProtocol
      (withParams Samples.looseZonesUpdate [(lit "id", Samples.sampleId)]).
Proof.
  repeat split; vm_compute; reflexivity.
Qed.

(** The schema does not look at the instant a completion date denotes: a
    date far in the future is accepted by the body validation. *)
Lemma complianceLog_future_date_accepted :
  accepts createComplianceLogSchema
    (VObj [(lit "completionDate", VStr (lit "2999-01-01T00:00:00Z"))]) = true.
Proof. reflexivity. Qed.

End RequestValidation.

(** ** Authentication *)

Module Authentication.
Import Js Zod Express DispatchFacts.

(** C10: [router.use(authenticateToken)] is the first layer of the protocol
    router and of the hazard-zone router, so a request the middleware does
    not let through is ended by it in both, and reaches no handler. *)
Theorem routers_require_authentication
    (authenticated : request -> bool) (req : request)
    (Hno : authenticated req = false) :
  (hd_error ProtocolRoutes.router = Some (Use authenticateToken) /\
   hd_error HazardZoneRoutes.router = Some (Use authenticateToken)) /\
  dispatch authenticated ProtocolRoutes.router req = Rejected authenticateToken /\
  dispatch authenticated HazardZoneRoutes.router req = Rejected authenticateToken.
Proof.
  split; [split; reflexivity|].
  split; apply dispatch_guarded; exact Hno.
Qed.

Lemma routers_require_authentication_witness :
  (hd_error ProtocolRoutes.router = Some (Use authenticateToken) /\
   hd_error HazardZoneRoutes.router = Some (Use authenticateToken)) /\
  dispatch Samples.hasAuthorization ProtocolRoutes.router Samples.anonymousList
  = Rejected authenticateToken /\
  dispatch Samples.hasAuthorization HazardZoneRoutes.router Samples.anonymousList
  = Rejected authenticateToken.
Proof.
  apply (routers_require_authentication Samples.hasAuthorization
           Samples.anonymousList).
  reflexivity.
Defined.

(** Conversely, a request that reaches a handler was let through. *)
Lemma reached_authenticated (H : Type) (rest : router H)
    (authenticated : request -> bool) (req req' : request) (h : H) :
  dispatch authenticated (Use authenticateToken :: rest) req = Reached h req' ->
  authenticated req = true.
Proof.
  unfold dispatch. simpl.
  destruct (authenticated req); [reflexivity|discriminate].
Qed.

End Authentication.

(** ** The calendar *)

Module CalendarFacts.
Import Engine.
Local Open Scope Z_scope.

Ltac euclid := Z.to_euclidean_division_equations; lia.

(** A day starts at or before each of its instants, and the next day
    after all of them. *)
Lemma dayOf_bracket (cfg : Config) (t : instant) :
  startOfDay cfg (dayOf cfg t) <= t < startOfDay cfg (dayOf cfg t + 1).
Proof.
  unfold startOfDay, dayOf, NS_PER_DAY, NS_PER_HOUR. euclid.
Qed.

Lemma startOfDay_lt (cfg : Config) (d d' : Z) :
  d < d' -> startOfDay cfg d < startOfDay cfg d'.
Proof.
  unfold startOfDay, NS_PER_DAY, NS_PER_HOUR. lia.
Qed.

Lemma startOfDay_le (cfg : Config) (d d' : Z) :
  d <= d' -> startOfDay cfg d <= startOfDay cfg d'.
Proof.
  unfold startOfDay, NS_PER_DAY, NS_PER_HOUR. lia.
Qed.

(** An instant at or after the start of day [d] falls on day [d] or later;
    one before it falls on an earlier day. *)
Lemma dayOf_ge (cfg : Config) (d : Z) (t : instant) :
  startOfDay cfg d <= t <-> d <= dayOf cfg t.
Proof.
  unfold startOfDay, dayOf, NS_PER_DAY, NS_PER_HOUR. split; intros; euclid.
Qed.

Lemma weekOf_bracket (cfg : Config) (d : Z) :
  weekFirstDay cfg (weekOf cfg d) <= d < weekFirstDay cfg (weekOf cfg d + 1).
Proof.
  unfold weekFirstDay, weekOf. euclid.
Qed.

(** The first day of month [j] is within a few days of [j] average
    months: 4800 months are 146097 days. *)
Lemma monthFirstDay_estimate (j : Z) :
  146097 * j - 10500 <= 4800 * (monthFirstDay j + 719468) <= 146097 * j + 15400.
Proof.
  unfold monthFirstDay. cbv zeta. euclid.
Qed.

(** A month has at least one day. *)
Lemma monthFirstDay_step (j : Z) : monthFirstDay j < monthFirstDay (j + 1).
Proof.
  pose proof (monthFirstDay_estimate j).
  pose proof (monthFirstDay_estimate (j + 1)). lia.
Qed.

Lemma monthOf_bracket (d : Z) :
  monthFirstDay (monthOf d) <= d < monthFirstDay (monthOf d + 1).
Proof.
  unfold monthOf. cbv zeta.
  set (j0 := 4800 * (d + 719468) / 146097).
  assert (Hj0 : 146097 * j0 <= 4800 * (d + 719468) < 146097 * (j0 + 1))
    by (unfold j0; euclid).
  destruct (Z.leb_spec (monthFirstDay (j0 + 1)) d) as [Hup|Hup].
  - pose proof (monthFirstDay_estimate (j0 + 1 + 1)). lia.
  - destruct (Z.ltb_spec d (monthFirstDay j0)) as [Hdown|Hdown].
    + replace (j0 - 1 + 1) with j0 by lia.
      pose proof (monthFirstDay_estimate (j0 - 1)). lia.
    + lia.
Qed.

(** A month has 28 to 31 days. *)
Lemma month_length (j : Z) :
  28 <= monthFirstDay (j + 1) - monthFirstDay j <= 31.
Proof.
  unfold monthFirstDay. cbv zeta. euclid.
Qed.

(** The calendar agrees with the civil dates it is used at. *)
Example first_of_January_1970 : monthFirstDay (monthIndex 1970 1) = 0.
Proof. reflexivity. Qed.

Example February_2024 :
  monthOf 19782 = monthIndex 2024 2 /\
  monthFirstDay (monthIndex 2024 2) = 19754 /\
  monthFirstDay (monthIndex 2024 3) = 19783.
Proof. repeat split. Qed.

Example February_1900_has_28_days :
  monthFirstDay (monthIndex 1900 3) - monthFirstDay (monthIndex 1900 2) = 28.
Proof. reflexivity. Qed.

End CalendarFacts.

(** ** Windows *)

Module WindowFacts.
Import Engine CalendarFacts.
Local Open Scope Z_scope.

(** A numbering of consecutive non-empty intervals: [bnd k] is where
    interval [k] starts, [idx t] the interval [t] lies in. *)
Section Grid.

Variable bnd : Z -> Z.
Variable idx : Z -> Z.
Hypothesis bnd_step : forall k, bnd k < bnd (k + 1).
Hypothesis idx_bracket : forall t, bnd (idx t) <= t < bnd (idx t + 1).

Lemma bnd_lt (k k' : Z) : k < k' -> bnd k < bnd k'.
Proof.
  intros Hlt. replace k' with (k + 1 + (k' - k - 1)) by lia.
  assert (Hnn : 0 <= k' - k - 1) by lia.
  generalize dependent (k' - k - 1). intros n Hn. clear Hlt.
  pattern n. apply natlike_ind; [| |exact Hn].
  - rewrite Z.add_0_r. apply bnd_step.
  - intros m _ IH. replace (k + 1 + Z.succ m) with (k + 1 + m + 1) by lia.
    pose proof (bnd_step (k + 1 + m)). lia.
Qed.

Lemma bnd_le (k k' : Z) : k <= k' -> bnd k <= bnd k'.
Proof.
  intros Hle. destruct (Z.eq_dec k k') as [->|Hne]; [lia|].
  pose proof (bnd_lt k k'). lia.
Qed.

(** The interval an instant lies in is determined by its bounds. *)
Lemma idx_unique (k t : Z) : bnd k <= t < bnd (k + 1) -> idx t = k.
Proof.
  intros Ht. pose proof (idx_bracket t) as Hb.
  destruct (Z.lt_trichotomy (idx t) k) as [Hlt|[Heq|Hgt]]; [|exact Heq|].
  - pose proof (bnd_le (idx t + 1) k). lia.
  - pose proof (bnd_le (k + 1) (idx t)). lia.
Qed.

Lemma idx_bnd (k : Z) : idx (bnd k) = k.
Proof.
  apply idx_unique. pose proof (bnd_step k). lia.
Qed.

Lemma idx_before_bnd (k : Z) : idx (bnd k - 1) = k - 1.
Proof.
  apply idx_unique. replace (k - 1 + 1) with k by lia.
  pose proof (idx_bracket (bnd k - 1)) as Hb.
  split; [|lia].
  destruct (Z_lt_le_dec (idx (bnd k - 1)) k) as [Hlt|Hge].
  - pose proof (bnd_le (idx (bnd k - 1) + 1) k).
    destruct (Z.eq_dec (idx (bnd k - 1)) (k - 1)) as [Heq|Hne].
    + rewrite Heq in Hb. lia.
    + pose proof (bnd_lt (idx (bnd k - 1) + 1) k). lia.
  - pose proof (bnd_le k (idx (bnd k - 1))). lia.
Qed.

End Grid.

(** The windows of each frequency are such a numbering. *)
Lemma windowFor_grid (cfg : Config) (f : Frequency) (t : instant) (h : Z) :
  windowFor cfg f t h =
  (windowBoundary cfg f h (windowIndex cfg f h t),
   windowBoundary cfg f h (windowIndex cfg f h t + 1)).
Proof.
  destruct f; cbv beta iota zeta delta [windowFor windowBoundary windowIndex];
    reflexivity.
Qed.

Lemma windowBoundary_step (cfg : Config) (f : Frequency) (h k : Z) :
  windowBoundary cfg f h k < windowBoundary cfg f h (k + 1).
Proof.
  destruct f; simpl.
  - apply startOfDay_lt. lia.
  - apply startOfDay_lt. unfold weekFirstDay. lia.
  - apply startOfDay_lt, monthFirstDay_step.
  - pose proof (startOfDay_lt cfg k (k + 1)). lia.
  - pose proof (startOfDay_lt cfg k (k + 1)). lia.
Qed.

Lemma windowIndex_bracket (cfg : Config) (f : Frequency) (h : Z) (t : instant) :
  windowBoundary cfg f h (windowIndex cfg f h t) <= t
  < windowBoundary cfg f h (windowIndex cfg f h t + 1).
Proof.
  destruct f; simpl.
  - apply dayOf_bracket.
  - pose proof (dayOf_bracket cfg t) as Hd.
    pose proof (weekOf_bracket cfg (dayOf cfg t)) as Hw.
    pose proof (startOfDay_le cfg (weekFirstDay cfg (weekOf cfg (dayOf cfg t)))
                  (dayOf cfg t)).
    pose proof (startOfDay_le cfg (dayOf cfg t + 1)
                  (weekFirstDay cfg (weekOf cfg (dayOf cfg t) + 1))).
    lia.
  - pose proof (dayOf_bracket cfg t) as Hd.
    pose proof (monthOf_bracket (dayOf cfg t)) as Hm.
    pose proof (startOfDay_le cfg (monthFirstDay (monthOf (dayOf cfg t)))
                  (dayOf cfg t)).
    pose proof (startOfDay_le cfg (dayOf cfg t + 1)
                  (monthFirstDay (monthOf (dayOf cfg t) + 1))).
    lia.
  - pose proof (dayOf_bracket cfg (t - h * NS_PER_HOUR)). lia.
  - pose proof (dayOf_bracket cfg (t - h * NS_PER_HOUR)). lia.
Qed.

Lemma inWindow_spec (w : Window) (t : instant) :
  inWindow w t = true <-> windowStart w <= t < windowEnd w.
Proof.
  unfold inWindow. rewrite andb_true_iff, Z.leb_le, Z.ltb_lt. tauto.
Qed.

(** A window is not empty and contains its reference instant. *)
Lemma windowFor_nonempty (cfg : Config) (f : Frequency) (t : instant) (h : Z) :
  windowStart (windowFor cfg f t h) < windowEnd (windowFor cfg f t h).
Proof.
  rewrite windowFor_grid. apply windowBoundary_step.
Qed.

Lemma windowFor_contains (cfg : Config) (f : Frequency) (t : instant) (h : Z) :
  inWindow (windowFor cfg f t h) t = true.
Proof.
  apply inWindow_spec. rewrite windowFor_grid. apply windowIndex_bracket.
Qed.

(** Every instant of a window has that window. *)
Lemma windowFor_same (cfg : Config) (f : Frequency) (ref t : instant) (h : Z) :
  inWindow (windowFor cfg f ref h) t = true ->
  windowFor cfg f t h = windowFor cfg f ref h.
Proof.
  rewrite inWindow_spec, !windowFor_grid. simpl. intros Ht.
  rewrite (idx_unique (windowBoundary cfg f h) (windowIndex cfg f h)
             (windowBoundary_step cfg f h) (windowIndex_bracket cfg f h)
             (windowIndex cfg f h ref) t Ht).
  reflexivity.
Qed.

(** The window that follows starts where the window ends, and the window
    that precedes ends where it starts. *)
Lemma nextWindow_start (cfg : Config) (f : Frequency) (ref : instant) (h : Z) :
  windowStart (nextWindow cfg f (windowFor cfg f ref h) h)
  = windowEnd (windowFor cfg f ref h).
Proof.
  unfold nextWindow. rewrite !windowFor_grid. simpl.
  rewrite (idx_bnd (windowBoundary cfg f h) (windowIndex cfg f h)
             (windowBoundary_step cfg f h) (windowIndex_bracket cfg f h)).
  reflexivity.
Qed.

Lemma previousWindow_end (cfg : Config) (f : Frequency) (ref : instant) (h : Z) :
  windowEnd (previousWindow cfg f (windowFor cfg f ref h) h)
  = windowStart (windowFor cfg f ref h).
Proof.
  unfold previousWindow. rewrite !windowFor_grid. simpl.
  rewrite (idx_before_bnd (windowBoundary cfg f h) (windowIndex cfg f h)
             (windowBoundary_step cfg f h) (windowIndex_bracket cfg f h)).
  now replace (windowIndex cfg f h ref - 1 + 1) with (windowIndex cfg f h ref) by lia.
Qed.

Lemma previous_of_next (cfg : Config) (f : Frequency) (ref : instant) (h : Z) :
  previousWindow cfg f (nextWindow cfg f (windowFor cfg f ref h) h) h
  = windowFor cfg f ref h.
Proof.
  unfold previousWindow. rewrite nextWindow_start.
  apply windowFor_same, inWindow_spec.
  pose proof (windowFor_nonempty cfg f ref h). lia.
Qed.

End WindowFacts.

(** ** The engine's contracts *)

Module EngineFacts.
Import Engine CalendarFacts WindowFacts.
Local Open Scope Z_scope.

(** C3: the validator answers [Rejected FUTURE_DATE] exactly for the
    completion dates strictly later than [now] plus the clock-skew
    tolerance; with the default configuration a completion date equal to
    [now] is accepted. *)
Theorem future_date_rejected_iff :
  (forall (cfg : Config) (completion now : instant),
     validate cfg completion now = Rejected FUTURE_DATE <->
     now + clockSkewTolerance cfg < completion) /\
  (forall now : instant, validate defaultConfig now now = Ok).
Proof.
  split.
  - intros cfg completion now. unfold validate.
    destruct (Z.ltb_spec (now + clockSkewTolerance cfg) completion) as [Hlt|Hge].
    + tauto.
    + split; [|lia].
      destruct (maxBackfill cfg) as [age|]; [|discriminate].
      destruct (completion <? now - age); discriminate.
  - intros now. unfold validate, defaultConfig. simpl.
    destruct (Z.ltb_spec (now + 0) now) as [Hlt|Hge]; [lia|reflexivity].
Qed.

(** With a tolerance that is not negative and no backfill limit, a
    completion date that is not in the future is accepted. *)
Lemma validate_not_future (cfg : Config) (completion now : instant) :
  0 <= clockSkewTolerance cfg -> maxBackfill cfg = None ->
  completion <= now -> validate cfg completion now = Ok.
Proof.
  intros Htol Hage Hle. unfold validate. rewrite Hage.
  destruct (Z.ltb_spec (now + clockSkewTolerance cfg) completion); [lia|reflexivity].
Qed.

(** Counting a log list with one more log. *)
Lemma countIn_cons (w : Window) (l : ComplianceLog) (logs : list ComplianceLog) :
  countIn w (l :: logs) =
  countIn w logs + (if inWindow w (completionDate l) then 1 else 0).
Proof.
  unfold countIn. simpl. destruct (inWindow w (completionDate l)); simpl length; lia.
Qed.

(** C5, as stated, fails: at noon, a day less one nanosecond later is an
    instant of the next day. *)
Lemma containment_from_reference_fails :
  ~ (forall (cfg : Config) (f : Frequency) (referenceInstant : instant) (h : Z),
       let w := windowFor cfg f referenceInstant h in
       windowStart w < windowEnd w /\
       windowFor cfg f (referenceInstant + windowLength w - 1) h = w).
Proof.
  intros Hclaim.
  destruct (Hclaim defaultConfig DAILY Samples.noon 0) as [_ Hsame].
  vm_compute in Hsame. discriminate.
Qed.

(** C5, amended: a window ends after it starts, and the windows computed
    for its first instant [windowStart], for its last instant
    [windowStart + windowLength - 1ns] and for every instant in between
    are the window itself. *)
Theorem window_containment
    (cfg : Config) (f : Frequency) (referenceInstant t : instant) (h : Z)
    (Hin : inWindow (windowFor cfg f referenceInstant h) t = true) :
  let w := windowFor cfg f referenceInstant h in
  windowStart w < windowEnd w /\
  windowFor cfg f (windowStart w) h = w /\
  windowFor cfg f (windowStart w + windowLength w - 1) h = w /\
  windowFor cfg f t h = w.
Proof.
  intros w. pose proof (windowFor_nonempty cfg f referenceInstant h) as Hne.
  fold w in Hne. repeat split.
  - exact Hne.
  - apply windowFor_same, inWindow_spec. fold w. lia.
  - apply windowFor_same, inWindow_spec. fold w. unfold windowLength. lia.
  - now apply windowFor_same.
Qed.

Lemma window_containment_witness :
  let w := windowFor defaultConfig MONTHLY Samples.leapDay 0 in
  windowStart w < windowEnd w /\
  windowFor defaultConfig MONTHLY (windowStart w) 0 = w /\
  windowFor defaultConfig MONTHLY (windowStart w + windowLength w - 1) 0 = w /\
  windowFor defaultConfig MONTHLY (19760 * NS_PER_DAY) 0 = w.
Proof.
  apply (window_containment defaultConfig MONTHLY Samples.leapDay
           (19760 * NS_PER_DAY) 0).
  vm_compute. reflexivity.
Defined.

(** C4: a log completed exactly at [windowEnd] of the current window is
    not counted toward it and leaves the evaluation as it was; the window
    that follows starts at that instant and counts the log. *)
Theorem boundary_log_counts_next
    (cfg : Config) (h : Z) (p : Protocol) (l : ComplianceLog)
    (logs : list ComplianceLog) (referenceInstant : instant)
    (Hl : completionDate l
          = windowEnd (windowFor cfg (frequency p) referenceInstant h)) :
  let w := windowFor cfg (frequency p) referenceInstant h in
  let next := nextWindow cfg (frequency p) w h in
  inWindow w (completionDate l) = false /\
  countIn w (l :: logs) = countIn w logs /\
  evaluate cfg h p (l :: logs) referenceInstant
  = evaluate cfg h p logs referenceInstant /\
  windowStart next = windowEnd w /\
  inWindow next (completionDate l) = true /\
  countIn next (l :: logs) = countIn next logs + 1.
Proof.
  intros w next.
  pose proof (windowFor_nonempty cfg (frequency p) referenceInstant h) as Hne.
  fold w in Hne, Hl.
  assert (Hout : inWindow w (completionDate l) = false).
  { unfold inWindow. rewrite Hl, Z.ltb_irrefl. apply andb_false_r. }
  assert (Hprev : inWindow (previousWindow cfg (frequency p) w h)
                    (completionDate l) = false).
  { unfold inWindow at 1.
    replace (windowEnd (previousWindow cfg (frequency p) w h))
      with (windowStart w) by (symmetry; apply previousWindow_end).
    destruct (Z.ltb_spec (completionDate l) (windowStart w)); [lia|].
    apply andb_false_r. }
  assert (Hstart : windowStart next = windowEnd w)
    by apply nextWindow_start.
  assert (Hnext : inWindow next (completionDate l) = true).
  { rewrite Hl. apply windowFor_contains. }
  repeat split.
  - exact Hout.
  - rewrite countIn_cons, Hout. lia.
  - unfold evaluate. fold w. rewrite !countIn_cons, Hout, Hprev, !Z.add_0_r.
    reflexivity.
  - exact Hstart.
  - exact Hnext.
  - rewrite countIn_cons, Hnext. reflexivity.
Qed.

Lemma boundary_log_counts_next_witness :
  let w := windowFor defaultConfig DAILY Samples.noon 0 in
  let next := nextWindow defaultConfig DAILY w 0 in
  inWindow w (completionDate Samples.midnightLog) = false /\
  countIn w [Samples.midnightLog] = countIn w [] /\
  evaluate defaultConfig 0 Samples.dailyProtocol [Samples.midnightLog] Samples.noon
  = evaluate defaultConfig 0 Samples.dailyProtocol [] Samples.noon /\
  windowStart next = windowEnd w /\
  inWindow next (completionDate Samples.midnightLog) = true /\
  countIn next [Samples.midnightLog] = countIn next [] + 1.
Proof.
  apply (boundary_log_counts_next defaultConfig 0 Samples.dailyProtocol
           Samples.midnightLog [] Samples.noon).
  vm_compute. reflexivity.
Defined.

(** The scenarios of the specification the evaluator is run on: a weekly
    protocol with a target of two, logged on Monday and Wednesday of the
    week of 1970-01-05. *)
Example weekly_scenario :
  let p := mkProtocol Samples.sampleId Samples.sampleId WEEKLY 2 true [] in
  let at_ (day hour : Z) := day * NS_PER_DAY + hour * NS_PER_HOUR in
  let monday := mkLog [] Samples.sampleId (at_ 4 8) None (at_ 4 8) in
  let wednesday := mkLog [] Samples.sampleId (at_ 6 8) None (at_ 6 8) in
  evaluate defaultConfig 0 p [monday; wednesday] (at_ 8 12) = State COMPLIANT /\
  evaluate defaultConfig 0 p [monday] (at_ 8 12) = State PENDING /\
  evaluate defaultConfig 0 p [monday] (at_ 11 12) = State OVERDUE.
Proof. vm_compute. repeat split. Qed.

End EngineFacts.

(** ** What the schemas accept *)

Module ShapeFacts.
Import Js Zod Shapes SchemaFacts.

Lemma accepts_object_cons (key : jsstring) (sc : schema)
    (shape : list (jsstring * schema)) (fields : list (jsstring * value)) :
  accepts (ZObject ((key, sc) :: shape)) (VObj fields)
  = accepts sc (prop key fields) && accepts (ZObject shape) (VObj fields).
Proof. reflexivity. Qed.

Lemma accepts_object_nil (fields : list (jsstring * value)) :
  accepts (ZObject []) (VObj fields) = true.
Proof. reflexivity. Qed.

Lemma accepts_any_string (v : value) :
  accepts (ZString []) v = true <-> aString v.
Proof.
  rewrite accepts_string. unfold aString. split.
  - intros (s & -> & _). now exists s.
  - intros (s & ->). now exists s.
Qed.

Lemma accepts_string_range (lo hi : nat) (v : value) :
  accepts (ZString [Min lo; Max hi]) v = true <-> aStringOfLength lo hi v.
Proof.
  rewrite accepts_string. unfold aStringOfLength. split.
  - intros (s & -> & H). exists s. split; [reflexivity|].
    simpl in H. rewrite andb_true_r in H.
    apply andb_prop in H as [H1 H2]. apply Nat.leb_le in H1, H2. lia.
  - intros (s & -> & H1 & H2). exists s. split; [reflexivity|].
    simpl. apply Nat.leb_le in H1, H2. now rewrite H1, H2.
Qed.

Lemma accepts_enum (options : list jsstring) (v : value) :
  accepts (ZEnum options) v = true <-> oneOf options v.
Proof.
  unfold oneOf. split.
  - destruct v; simpl; try discriminate. intros H.
    apply existsb_exists in H as (o & Hin & Heq).
    apply str_eqb_eq in Heq as ->. now exists o.
  - intros (s & -> & Hin). simpl. apply existsb_exists.
    exists s. split; [exact Hin|apply str_eqb_refl].
Qed.

Lemma accepts_number_min (m : Q) (v : value) :
  accepts (ZNumber [NumMin m]) v = true <-> aNumberAtLeast m v.
Proof.
  rewrite accepts_number. unfold aNumberAtLeast. split.
  - intros (q & -> & H). exists q. split; [reflexivity|].
    simpl in H. rewrite andb_true_r in H. now apply Qle_bool_iff.
  - intros (q & -> & H). exists q. split; [reflexivity|].
    simpl. rewrite andb_true_r. now apply Qle_bool_iff.
Qed.

Lemma accepts_boolean (v : value) :
  accepts ZBoolean v = true <-> aBoolean v.
Proof.
  unfold aBoolean. split.
  - destruct v; simpl; try discriminate. intros _. now exists b.
  - intros (b & ->). reflexivity.
Qed.

Lemma accepts_array_of_strings (v : value) :
  accepts (ZArray (ZString [])) v = true <-> anArrayOfStrings v.
Proof.
  unfold anArrayOfStrings. split.
  - destruct v; simpl; try discriminate. intros H. exists items.
    split; [reflexivity|]. apply Forall_forall. intros x Hx.
    rewrite forallb_forall in H. now apply accepts_any_string, H.
  - intros (items & -> & H). simpl. apply forallb_forall. intros x Hx.
    rewrite Forall_forall in H. now apply accepts_any_string, H.
Qed.

Lemma accepts_optional_shape (sc : schema) (P : value -> Prop) (v : value) :
  (accepts sc v = true <-> P v) ->
  (accepts (ZOptional sc) v = true <-> absentOr P v).
Proof.
  intros H. rewrite accepts_optional. unfold absentOr. tauto.
Qed.

(** [takeN] splits off a prefix. *)
Lemma takeN_spec (p : N -> bool) (n : nat) (s r : jsstring) :
  takeN p n s = Some r <->
  exists pre, s = pre ++ r /\ List.length pre = n /\
              Forall (fun c => p c = true) pre.
Proof.
  revert s. induction n as [|n IH]; intros s; simpl.
  - split.
    + intros H. injection H as ->. exists []. repeat split. constructor.
    + intros (pre & -> & Hlen & _). destruct pre; [reflexivity|discriminate].
  - destruct s as [|c s].
    + split; [discriminate|].
      intros ([|x pre] & Heq & Hlen & _); discriminate.
    + destruct (p c) eqn:Hc.
      * rewrite IH. split.
        -- intros (pre & -> & Hlen & Hall). exists (c :: pre).
           repeat split; simpl; auto.
        -- intros ([|x pre] & Heq & Hlen & Hall); [discriminate|].
           injection Heq as <- ->. exists pre. repeat split.
           ++ now injection Hlen.
           ++ now inversion Hall.
      * split; [discriminate|].
        intros ([|x pre] & Heq & Hlen & Hall); [discriminate|].
        injection Heq as <- ->. inversion Hall; congruence.
Qed.

Lemma expect_spec (c : N) (s r : jsstring) :
  expect c s = Some r <-> s = c :: r.
Proof.
  unfold expect. destruct s as [|x s].
  - split; discriminate.
  - destruct (N.eqb_spec x c) as [->|Hne]; split; intros H;
      try injection H as ->; try congruence; reflexivity.
Qed.

Lemma andThen_some {A B : Type} (o : option A) (f : A -> option B) (b : B) :
  o >>= f = Some b <-> exists a, o = Some a /\ f a = Some b.
Proof.
  destruct o as [a|]; simpl; split.
  - intros H. now exists a.
  - intros (a' & Ha & H). now injection Ha as ->.
  - discriminate.
  - intros (a' & Ha & _). discriminate.
Qed.

End ShapeFacts.

(** ** The string formats *)

Module FormatFacts.
Import Js Zod Shapes SchemaFacts ShapeFacts.

Lemma takeN_group (p : N -> bool) (n : nat) (g r : jsstring) :
  List.length g = n -> Forall (fun c => p c = true) g ->
  takeN p n (g ++ r) = Some r.
Proof.
  intros Hlen Hall. apply takeN_spec. now exists g.
Qed.

Lemma takeN_one (p : N -> bool) (s r : jsstring) :
  takeN p 1 s = Some r <-> exists c, s = c :: r /\ p c = true.
Proof.
  rewrite takeN_spec. split.
  - intros ([|c [|x pre]] & -> & Hlen & Hall); try discriminate.
    exists c. split; [reflexivity|now inversion Hall].
  - intros (c & -> & Hc). exists [c]. repeat split. now constructor.
Qed.

Lemma versionDigit_hex (c : N) : versionDigit c = true -> hexDigit c = true.
Proof.
  unfold versionDigit, hexDigit, digit.
  rewrite !orb_true_iff, !andb_true_iff, !N.leb_le. lia.
Qed.

Lemma variantDigit_hex (c : N) : variantDigit c = true -> hexDigit c = true.
Proof.
  unfold variantDigit, hexDigit, digit.
  rewrite !orb_true_iff, !andb_true_iff, !N.leb_le, !N.eqb_eq. lia.
Qed.

Lemma hexGroup_cons (n : nat) (c : N) (g : jsstring) :
  hexDigit c = true -> hexGroup n g -> hexGroup (S n) (c :: g).
Proof.
  intros Hc [Hlen Hall]. split; [simpl; now rewrite Hlen|now constructor].
Qed.

(** The executable check and the groups it reads. *)
Lemma rfcUuid_spec (s : jsstring) : rfcUuid s = true <-> rfcUuidString s.
Proof.
  unfold rfcUuid, rfcUuidString, hexGroup. split.
  - destruct (_ >>= takeN hexDigit 12) as [[|x r]|] eqn:E; try discriminate.
    intros _.
    apply andThen_some in E as (s10 & E & He).
    apply andThen_some in E as (s9 & E & H9).
    apply andThen_some in E as (s8 & E & Hd).
    apply andThen_some in E as (s7 & E & Hw).
    apply andThen_some in E as (s6 & E & H6).
    apply andThen_some in E as (s5 & E & Hc).
    apply andThen_some in E as (s4 & E & Hv).
    apply andThen_some in E as (s3 & E & H3).
    apply andThen_some in E as (s2 & E & Hb).
    apply andThen_some in E as (s1 & Ha & H1).
    apply takeN_spec in Ha as (a & -> & Hla & Hfa).
    apply expect_spec in H1 as ->.
    apply takeN_spec in Hb as (b & -> & Hlb & Hfb).
    apply expect_spec in H3 as ->.
    apply takeN_one in Hv as (v & -> & Hv).
    apply takeN_spec in Hc as (c & -> & Hlc & Hfc).
    apply expect_spec in H6 as ->.
    apply takeN_one in Hw as (w & -> & Hw).
    apply takeN_spec in Hd as (d & -> & Hld & Hfd).
    apply expect_spec in H9 as ->.
    apply takeN_spec in He as (e & -> & Hle & Hfe).
    exists a, b, v, c, w, d, e. rewrite app_nil_r. repeat split; assumption.
  - intros (a & b & v & c & w & d & e & -> & [Hla Hfa] & [Hlb Hfb] & Hv
              & [Hlc Hfc] & Hw & [Hld Hfd] & [Hle Hfe]).
    rewrite (takeN_group _ _ a _ Hla Hfa). cbn [andThen].
    rewrite (proj2 (expect_spec _ _ _) eq_refl). cbn [andThen].
    rewrite (takeN_group _ _ b _ Hlb Hfb). cbn [andThen].
    rewrite (proj2 (expect_spec _ _ _) eq_refl). cbn [andThen].
    rewrite (proj2 (takeN_one _ _ _) (ex_intro _ v (conj eq_refl Hv))).
    cbn [andThen].
    rewrite (takeN_group _ _ c _ Hlc Hfc). cbn [andThen].
    rewrite (proj2 (expect_spec _ _ _) eq_refl). cbn [andThen].
    rewrite (proj2 (takeN_one _ _ _) (ex_intro _ w (conj eq_refl Hw))).
    cbn [andThen].
    rewrite (takeN_group _ _ d _ Hld Hfd). cbn [andThen].
    rewrite (proj2 (expect_spec _ _ _) eq_refl). cbn [andThen].
    rewrite <- (app_nil_r e).
    rewrite (takeN_group _ _ e _ Hle Hfe). reflexivity.
Qed.

Lemma rfcUuidString_groups (s : jsstring) : rfcUuidString s -> uuidString s.
Proof.
  intros (a & b & v & c & w & d & e & -> & Ha & Hb & Hv & Hc & Hw & Hd & He).
  exists a, b, (v :: c), (w :: d), e. repeat split; try apply Ha;
    try apply Hb; try apply He.
  - simpl. f_equal. apply Hc.
  - constructor; [now apply versionDigit_hex|apply Hc].
  - simpl. f_equal. apply Hd.
  - constructor; [now apply variantDigit_hex|apply Hd].
Qed.

Lemma uuidString_length (s : jsstring) :
  uuidString s -> List.length s = 36%nat.
Proof.
  intros (a & b & c & d & e & -> & [Hla _] & [Hlb _] & [Hlc _] & [Hld _]
            & [Hle _]).
  repeat (rewrite length_app || simpl List.length). lia.
Qed.

(** What [isUuid] accepts: the UUIDs with a version and a variant digit,
    the nil UUID and the max UUID. *)
Lemma isUuid_cases (s : jsstring) :
  isUuid s = true <-> rfcUuidString s \/ s = nilUuid \/ s = maxUuid.
Proof.
  unfold isUuid. rewrite !orb_true_iff, rfcUuid_spec, !str_eqb_eq. tauto.
Qed.

Lemma isUuid_shape (s : jsstring) : isUuid s = true -> uuidString s.
Proof.
  intros Hs. apply isUuid_cases in Hs as [Hs|[->| ->]].
  - now apply rfcUuidString_groups.
  - exists (repeat 48%N 8), (repeat 48%N 4), (repeat 48%N 4),
      (repeat 48%N 4), (repeat 48%N 12).
    split; [reflexivity|]. unfold hexGroup.
    repeat split; repeat constructor.
  - exists (repeat 102%N 8), (repeat 102%N 4), (repeat 102%N 4),
      (repeat 102%N 4), (repeat 102%N 12).
    split; [reflexivity|]. unfold hexGroup.
    repeat split; repeat constructor.
Qed.

Lemma rfcUuidString_isUuid (s : jsstring) : rfcUuidString s -> isUuid s = true.
Proof.
  intros Hs. apply isUuid_cases. now left.
Qed.

(** X1: an id that passes [z.string().uuid()] is made of five groups of
    8, 4, 4, 4 and 12 hexadecimal digits joined by dashes, hence of 36
    code units; and every such string whose third group starts with a
    digit from 1 to 8 and whose fourth group starts with 8, 9, a or b
    passes. *)
Theorem isUuid_groups :
  (forall s : jsstring,
     isUuid s = true -> uuidString s /\ List.length s = 36%nat) /\
  (forall s : jsstring, rfcUuidString s -> isUuid s = true).
Proof.
  split.
  - intros s Hs. apply isUuid_shape in Hs.
    split; [exact Hs|now apply uuidString_length].
  - exact rfcUuidString_isUuid.
Qed.

Lemma isHexColor_spec (s : jsstring) :
  isHexColor s = true <-> hexColorString s.
Proof.
  unfold isHexColor, hexColorString. split.
  - destruct (expect hash s >>= takeN hexDigit 6) as [[|x r]|] eqn:E;
      try discriminate.
    intros _. apply andThen_some in E as (s1 & Hh & H6).
    apply expect_spec in Hh as ->.
    apply takeN_spec in H6 as (ds & -> & Hlen & Hall).
    exists ds. rewrite app_nil_r. auto.
  - intros (ds & -> & Hlen & Hall).
    rewrite (proj2 (expect_spec _ _ _) eq_refl). cbn [andThen].
    rewrite <- (app_nil_r ds). now rewrite (takeN_group _ _ ds _ Hlen Hall).
Qed.

(** X2: the pattern [/^#[0-9A-Fa-f]{6}$/] of the hazard-zone schemas
    matches exactly the strings made of [#] and six hexadecimal digits,
    a digit being one of 0-9, A-F and a-f. *)
Theorem isHexColor_digits :
  (forall s : jsstring, isHexColor s = true <-> hexColorString s) /\
  (forall c : N,
     hexDigit c = true <->
     (48 <= c <= 57 \/ 65 <= c <= 70 \/ 97 <= c <= 102)%N).
Proof.
  split; [exact isHexColor_spec|].
  intros c. unfold hexDigit, digit.
  rewrite !orb_true_iff, !andb_true_iff, !N.leb_le. tauto.
Qed.

(** [digits] skips a run of digits. *)
Lemma digits_spec (s : jsstring) :
  exists ds, s = ds ++ digits s /\ Forall (fun c => digit c = true) ds.
Proof.
  induction s as [|c s (ds & Heq & Hall)]; simpl.
  - exists []. split; [reflexivity|constructor].
  - destruct (digit c) eqn:Hc.
    + exists (c :: ds). split; [simpl; now rewrite <- Heq|now constructor].
    + exists []. split; [reflexivity|constructor].
Qed.

Lemma digits_stop (ds : jsstring) (c : N) (r : jsstring) :
  Forall (fun c => digit c = true) ds -> digit c = false ->
  digits (ds ++ c :: r) = c :: r.
Proof.
  intros Hall Hc. induction Hall as [|x ds Hx _ IH]; simpl.
  - now rewrite Hc.
  - now rewrite Hx.
Qed.

Lemma firstn_exact (g r : jsstring) : firstn (List.length g) (g ++ r) = g.
Proof.
  induction g as [|c g IH]; simpl; [now destruct r|now rewrite IH].
Qed.

Lemma field_spec (n : nat) (s g r : jsstring) :
  field n s = Some (g, r) <-> s = g ++ r /\ digitGroup n g.
Proof.
  unfold field, digitGroup. split.
  - destruct (takeN digit n s) as [rest|] eqn:E; [|discriminate].
    apply takeN_spec in E as (pre & -> & Hlen & Hall).
    rewrite <- Hlen, firstn_exact. intros H. injection H as <- <-. auto.
  - intros (-> & Hlen & Hall). rewrite (takeN_group _ _ g r Hlen Hall).
    now rewrite <- Hlen, firstn_exact.
Qed.

Lemma fraction_spec (s : jsstring) :
  fraction s = Some [upperZ] <->
  exists f, s = f ++ [upperZ] /\ fractionString f.
Proof.
  unfold fractionString. split.
  - destruct s as [|c [|d rest]]; simpl.
    + discriminate.
    + intros H. injection H as ->. exists []. split; [reflexivity|now left].
    + destruct (N.eqb_spec c dot) as [->|Hne].
      * destruct (digit d) eqn:Hd; [|discriminate].
        intros H. injection H as H.
        destruct (digits_spec rest) as (ds & Hrest & Hall). rewrite H in Hrest.
        exists (dot :: d :: ds). split; [simpl; now rewrite <- Hrest|].
        right. exists d, ds. split; [reflexivity|now constructor].
      * discriminate.
  - intros (f & -> & [->|(d & ds & -> & Hall)]); [reflexivity|].
    inversion Hall as [|? ? Hd Hds]; subst. simpl. rewrite Hd.
    now rewrite (digits_stop ds upperZ [] Hds eq_refl).
Qed.

Lemma seconds_spec (s : jsstring) :
  seconds s = Some [upperZ] <->
  exists t, s = t ++ [upperZ] /\ secondsString t.
Proof.
  unfold secondsString. split.
  - destruct s as [|c rest]; simpl; [discriminate|].
    destruct (N.eqb_spec c colon) as [->|Hne].
    + intros H. apply andThen_some in H as ([sec r] & Hf & H).
      apply field_spec in Hf as (-> & Hsec).
      destruct (N.leb_spec (decimal sec) 59) as [Hle|]; [|discriminate].
      apply fraction_spec in H as (f & -> & Hf).
      exists (colon :: sec ++ f). split; [simpl; now rewrite <- app_assoc|].
      right. exists sec, f. auto.
    + intros H. injection H as -> ->. exists []. split; [reflexivity|now left].
  - intros (t & -> & [->|(sec & f & -> & Hsec & Hle & Hf)]); [reflexivity|].
    simpl. rewrite <- app_assoc.
    rewrite (proj2 (field_spec 2 _ sec (f ++ [upperZ])) (conj eq_refl Hsec)).
    cbn [andThen]. apply N.leb_le in Hle. rewrite Hle.
    apply fraction_spec. now exists f.
Qed.

Lemma validDate_spec (y mo d : jsstring) :
  validDate y mo d = true <->
  (1 <= decimal mo <= 12)%N /\
  (1 <= decimal d <= daysInMonth (decimal y) (decimal mo))%N.
Proof.
  unfold validDate. rewrite andb_true_iff, !N.leb_le.
  split; [|tauto]. intros [H1 H2]. split; [|tauto].
  revert H2. unfold daysInMonth.
  destruct (N.eqb_spec (decimal mo) 2); [lia|].
  destruct (N.eqb_spec (decimal mo) 4); [lia|].
  destruct (N.eqb_spec (decimal mo) 6); [lia|].
  destruct (N.eqb_spec (decimal mo) 9); [lia|].
  destruct (N.eqb_spec (decimal mo) 11); [lia|]. simpl.
  destruct (N.leb_spec 1 (decimal mo)); simpl; [|lia].
  destruct (N.leb_spec (decimal mo) 12); lia.
Qed.

(** The executable check and the fields it reads. *)
Lemma isDatetime_spec (s : jsstring) :
  isDatetime s = true <-> datetimeString s.
Proof.
  unfold isDatetime, datetimeString. split.
  - match goal with
    | |- match ?e with _ => _ end = true -> _ =>
        destruct e as [[|x r]|] eqn:E; try discriminate
    end.
    intros _.
    apply andThen_some in E as ([y s1] & Hy & E). cbv beta iota in E.
    apply andThen_some in E as (s2 & H1 & E).
    apply andThen_some in E as ([mo s3] & Hmo & E). cbv beta iota in E.
    apply andThen_some in E as (s4 & H3 & E).
    apply andThen_some in E as ([d s5] & Hd & E). cbv beta iota in E.
    apply andThen_some in E as (s6 & H5 & E).
    apply andThen_some in E as ([h s7] & Hh & E). cbv beta iota in E.
    apply andThen_some in E as (s8 & H7 & E).
    apply andThen_some in E as ([mi s9] & Hmi & E). cbv beta iota in E.
    apply andThen_some in E as (s10 & H9 & E).
    apply expect_spec in E as ->.
    destruct (validDate y mo d) eqn:Hdate; [|discriminate].
    destruct (validTime h mi) eqn:Htime; [|discriminate].
    apply validDate_spec in Hdate as [Hmonth Hday].
    unfold validTime in Htime. apply andb_prop in Htime as [Hhour Hmin].
    apply N.leb_le in Hhour, Hmin.
    apply seconds_spec in H9 as (t & -> & Ht).
    apply field_spec in Hy as (-> & Hy), Hmo as (-> & Hmo), Hd as (-> & Hd),
      Hh as (-> & Hh), Hmi as (-> & Hmi).
    apply expect_spec in H1 as ->, H3 as ->, H5 as ->, H7 as ->.
    exists y, mo, d, h, mi, t. split; [reflexivity|tauto].
  - intros (y & mo & d & h & mi & t & -> & Hy & Hmo & Hd & Hh & Hmi & Hmonth
              & Hday & Hhour & Hmin & Ht).
    rewrite (proj2 (field_spec 4 _ y _) (conj eq_refl Hy)). cbn [andThen].
    rewrite (proj2 (expect_spec _ _ _) eq_refl). cbn [andThen].
    rewrite (proj2 (field_spec 2 _ mo _) (conj eq_refl Hmo)). cbn [andThen].
    rewrite (proj2 (expect_spec _ _ _) eq_refl). cbn [andThen].
    rewrite (proj2 (field_spec 2 _ d _) (conj eq_refl Hd)). cbn [andThen].
    rewrite (proj2 (validDate_spec y mo d) (conj Hmonth Hday)).
    rewrite (proj2 (expect_spec _ _ _) eq_refl). cbn [andThen].
    rewrite (proj2 (field_spec 2 _ h _) (conj eq_refl Hh)). cbn [andThen].
    rewrite (proj2 (expect_spec _ _ _) eq_refl). cbn [andThen].
    rewrite (proj2 (field_spec 2 _ mi _) (conj eq_refl Hmi)). cbn [andThen].
    unfold validTime. apply N.leb_le in Hhour, Hmin. rewrite Hhour, Hmin.
    cbn [andb].
    rewrite (proj2 (seconds_spec (t ++ [upperZ]))
               (ex_intro _ t (conj eq_refl Ht))).
    reflexivity.
Qed.

(** The verdicts on some strings; the leap day exists in 2024 and 2000,
    not in 2023 or 1900. *)
Example datetime_verdicts :
  map (fun s => isDatetime (lit s))
    [ "2020-01-01T06:15Z"; "2024-02-29T10:00:00Z"; "2000-02-29T00:00Z";
      "2024-01-01T23:59:59.5Z";
      "2024-02-30T10:00:00Z"; "2023-02-29T10:00:00Z"; "1900-02-29T00:00Z";
      "2024-13-45T99:99:99Z"; "2024-04-31T10:00Z"; "2024-01-01T24:00Z";
      "2024-01-01T10:00:60Z"; "2024-01-01T10:00.5Z";
      "2024-01-01T10:00:00+02:00"; "2024-01-01T10:00:00"; "2024-01-01" ]%string
  = [ true; true; true; true;
      false; false; false; false; false; false; false; false; false; false;
      false ].
Proof. reflexivity. Qed.

(** X3: a completion date that passes [z.string().datetime()] is a date
    of 10 code units, the letter T, a time of at least 5 and a final Z:
    it has at least 17 code units, and neither a UTC offset nor a local
    time is accepted in place of the Z. *)
Theorem isDatetime_utc (s : jsstring) (Hs : isDatetime s = true) :
  (exists date time,
     s = date ++ upperT :: time ++ [upperZ] /\
     List.length date = 10%nat /\ (5 <= List.length time)%nat) /\
  (17 <= List.length s)%nat /\ last s 0%N = upperZ.
Proof.
  apply isDatetime_spec in Hs
    as (y & mo & d & h & mi & t & -> & [Hy _] & [Hmo _] & [Hd _] & [Hh _]
          & [Hmi _] & _).
  assert (Heq : y ++ dash :: mo ++ dash :: d ++ upperT :: h ++ colon :: mi
                  ++ t ++ [upperZ]
                = (y ++ dash :: mo ++ dash :: d) ++ upperT
                    :: (h ++ colon :: mi ++ t) ++ [upperZ]).
  { repeat (rewrite <- app_assoc; simpl). reflexivity. }
  rewrite Heq. split; [|split].
  - eexists _, _. split; [reflexivity|].
    repeat (rewrite length_app || simpl List.length). lia.
  - repeat (rewrite length_app || simpl List.length). lia.
  - change (upperT :: (h ++ colon :: mi ++ t) ++ [upperZ])
      with ((upperT :: h ++ colon :: mi ++ t) ++ [upperZ]).
    rewrite app_assoc. apply last_last.
Qed.

Lemma isDatetime_utc_witness :
  (exists date time,
     lit "2020-01-01T06:15Z" = date ++ upperT :: time ++ [upperZ] /\
     List.length date = 10%nat /\ (5 <= List.length time)%nat) /\
  (17 <= List.length (lit "2020-01-01T06:15Z"))%nat /\
  last (lit "2020-01-01T06:15Z") 0%N = upperZ.
Proof.
  apply (isDatetime_utc (lit "2020-01-01T06:15Z")).
  reflexivity.
Defined.

End FormatFacts.

(** ** The body of a compliance log *)

Module ComplianceLogBody.
Import Js Zod Express ProtocolRoutes Shapes SchemaFacts FormatFacts.
Local Open Scope string_scope.

(** C9: [createComplianceLogSchema] accepts an object exactly when its
    [completionDate] is absent or a string in the datetime format and its
    [note] is absent or a string of at most 500 characters; in particular
    the empty body, which leaves the completion date to the controller,
    is accepted.  The datetime format is [YYYY-MM-DDTHH:MM], optional
    seconds with an optional fraction, and Z, of a day that exists: a
    time without seconds and the leap day of 2024 pass, the 30th of
    February, a 13th month and a UTC offset do not. *)
Theorem complianceLog_body_shape :
  (forall fields : list (jsstring * value),
     accepts createComplianceLogSchema (VObj fields) = true <->
     (prop (lit "completionDate") fields = VUndefined \/
      exists s, prop (lit "completionDate") fields = VStr s /\
                isDatetime s = true) /\
     (prop (lit "note") fields = VUndefined \/
      exists n, prop (lit "note") fields = VStr n /\
                (List.length n <= 500)%nat)) /\
  accepts createComplianceLogSchema (VObj []) = true /\
  (forall s : jsstring, isDatetime s = true <-> datetimeString s) /\
  (isDatetime (lit "2020-01-01T06:15Z") = true /\
   isDatetime (lit "2024-02-29T10:00:00Z") = true /\
   isDatetime (lit "2024-02-30T10:00:00Z") = false /\
   isDatetime (lit "2024-13-45T99:99:99Z") = false /\
   isDatetime (lit "2024-01-01T10:00:00+02:00") = false).
Proof.
  split; [|split; [reflexivity|split; [exact isDatetime_spec|]]];
    [|repeat split; reflexivity].
  intros fields. unfold createComplianceLogSchema. rewrite accepts_object.
  split.
  - intros (fields' & Hobj & Hshape). injection Hobj as <-.
    assert (Hdate : accepts (ZOptional (ZString [Datetime]))
                      (prop (lit "completionDate") fields) = true)
      by (apply Hshape; simpl; tauto).
    assert (Hnote : accepts (ZOptional (ZString [Max 500]))
                      (prop (lit "note") fields) = true)
      by (apply Hshape; simpl; tauto).
    apply accepts_optional in Hdate, Hnote. split.
    + destruct Hdate as [Hdate|Hdate]; [now left|right].
      apply accepts_string in Hdate as (s & Hs & Hchecks).
      exists s. split; [exact Hs|].
      simpl in Hchecks. now apply andb_prop in Hchecks as [Hd _].
    + destruct Hnote as [Hnote|Hnote]; [now left|right].
      apply accepts_string in Hnote as (n & Hn & Hchecks).
      exists n. split; [exact Hn|].
      simpl in Hchecks. apply andb_prop in Hchecks as [Hmax _].
      now apply Nat.leb_le.
  - intros [Hdate Hnote]. exists fields. split; [reflexivity|].
    intros key sc Hin. simpl in Hin.
    destruct Hin as [Hin|[Hin|[]]]; injection Hin as <- <-;
      apply accepts_optional.
    + destruct Hdate as [Hdate|(s & Hs & Hd)]; [now left|right].
      apply accepts_string. exists s. split; [exact Hs|].
      simpl. now rewrite Hd.
    + destruct Hnote as [Hnote|(n & Hn & Hmax)]; [now left|right].
      apply accepts_string. exists n. split; [exact Hn|].
      simpl. apply Nat.leb_le in Hmax. now rewrite Hmax.
Qed.

End ComplianceLogBody.

(** ** The body schemas of both route modules *)

Module BodySchemas.
Import Js Zod Express Shapes SchemaFacts ShapeFacts FormatFacts.
Import ProtocolRoutes.
Local Open Scope string_scope.

Lemma accepts_hex_color (v : value) :
  accepts (ZString [Regex isHexColor]) v = true <-> aHexColor v.
Proof.
  rewrite accepts_string. unfold aHexColor. split.
  - intros (s & -> & H). exists s. split; [reflexivity|].
    simpl in H. rewrite andb_true_r in H. now apply isHexColor_spec.
  - intros (s & -> & H). exists s. split; [reflexivity|].
    simpl. rewrite andb_true_r. now apply isHexColor_spec.
Qed.

Lemma createProtocol_fields (fields : list (jsstring * value)) :
  accepts createProtocolSchema (VObj fields) = true <->
  aStringOfLength 3 200 (prop (lit "name") fields) /\
  absentOr aString (prop (lit "description") fields) /\
  oneOf frequencyNames (prop (lit "frequency") fields) /\
  aNumberAtLeast 1 (prop (lit "targetCount") fields) /\
  absentOr anArrayOfStrings (prop (lit "zoneIds") fields).
Proof.
  unfold createProtocolSchema.
  rewrite !accepts_object_cons, accepts_object_nil, !andb_true_iff.
  rewrite accepts_string_range, accepts_enum, accepts_number_min.
  rewrite (accepts_optional_shape _ _ _ (accepts_any_string _)).
  rewrite (accepts_optional_shape _ _ _ (accepts_array_of_strings _)).
  tauto.
Qed.

Lemma updateProtocol_fields (fields : list (jsstring * value)) :
  accepts updateProtocolSchema (VObj fields) = true <->
  absentOr (aStringOfLength 3 200) (prop (lit "name") fields) /\
  absentOr aString (prop (lit "description") fields) /\
  absentOr (oneOf frequencyNames) (prop (lit "frequency") fields) /\
  absentOr (aNumberAtLeast 1) (prop (lit "targetCount") fields) /\
  absentOr aBoolean (prop (lit "isActive") fields) /\
  absentOr anArrayOfStrings (prop (lit "zoneIds") fields).
Proof.
  unfold updateProtocolSchema.
  rewrite !accepts_object_cons, accepts_object_nil, !andb_true_iff.
  rewrite (accepts_optional_shape _ _ _ (accepts_string_range _ _ _)).
  rewrite (accepts_optional_shape _ _ _ (accepts_any_string _)).
  rewrite (accepts_optional_shape _ _ _ (accepts_enum _ _)).
  rewrite (accepts_optional_shape _ _ _ (accepts_number_min _ _)).
  rewrite (accepts_optional_shape _ _ _ (accepts_boolean _)).
  rewrite (accepts_optional_shape _ _ _ (accepts_array_of_strings _)).
  tauto.
Qed.

(** X4: [createProtocolSchema] accepts an object exactly when [name] is
    a string of 3 to 200 code units, [description] is absent or a string,
    [frequency] is one of the five frequency names, [targetCount] is a
    number not below 1 and [zoneIds] is absent or an array of strings;
    [updateProtocolSchema] asks the same of the fields that are present,
    and that [isActive] be absent or a boolean. *)
Theorem protocol_schemas_shape (fields : list (jsstring * value)) :
  (accepts createProtocolSchema (VObj fields) = true <->
   aStringOfLength 3 200 (prop (lit "name") fields) /\
   absentOr aString (prop (lit "description") fields) /\
   oneOf frequencyNames (prop (lit "frequency") fields) /\
   aNumberAtLeast 1 (prop (lit "targetCount") fields) /\
   absentOr anArrayOfStrings (prop (lit "zoneIds") fields)) /\
  (accepts updateProtocolSchema (VObj fields) = true <->
   absentOr (aStringOfLength 3 200) (prop (lit "name") fields) /\
   absentOr aString (prop (lit "description") fields) /\
   absentOr (oneOf frequencyNames) (prop (lit "frequency") fields) /\
   absentOr (aNumberAtLeast 1) (prop (lit "targetCount") fields) /\
   absentOr aBoolean (prop (lit "isActive") fields) /\
   absentOr anArrayOfStrings (prop (lit "zoneIds") fields)).
Proof.
  split; [apply createProtocol_fields|apply updateProtocol_fields].
Qed.

(** A schema of objects accepts objects only. *)
Lemma accepted_object (shape : list (jsstring * schema)) (v : value) :
  accepts (ZObject shape) v = true -> exists fields, v = VObj fields.
Proof.
  destruct v; simpl; try discriminate. intros _. now exists fields.
Qed.

(** X5: a body [createProtocolSchema] accepts is accepted by
    [updateProtocolSchema] exactly when its [isActive], which creation
    does not look at, is absent or a boolean; a body with
    [isActive: "yes"] is valid for creation and invalid for an update. *)
Theorem create_body_on_update (fields : list (jsstring * value))
    (Hcreate : accepts createProtocolSchema (VObj fields) = true) :
  (accepts updateProtocolSchema (VObj fields) = true <->
   absentOr aBoolean (prop (lit "isActive") fields)) /\
  accepts createProtocolSchema Requests.activeAsText = true /\
  accepts updateProtocolSchema Requests.activeAsText = false.
Proof.
  split; [|split; reflexivity].
  apply createProtocol_fields in Hcreate
    as (Hname & Hdesc & Hfreq & Hcount & Hzones).
  rewrite updateProtocol_fields. unfold absentOr in *.
  split; [tauto|]. intros Hactive. repeat split; auto.
Qed.

Lemma create_body_on_update_witness :
  (accepts updateProtocolSchema
     (VObj [ (lit "name", VStr (lit "Morning PPE Inspection"));
             (lit "frequency", VStr (lit "DAILY"));
             (lit "targetCount", VNum 1) ]) = true <->
   absentOr aBoolean
     (prop (lit "isActive")
        [ (lit "name", VStr (lit "Morning PPE Inspection"));
          (lit "frequency", VStr (lit "DAILY"));
          (lit "targetCount", VNum 1) ])) /\
  accepts createProtocolSchema Requests.activeAsText = true /\
  accepts updateProtocolSchema Requests.activeAsText = false.
Proof.
  apply (create_body_on_update
           [ (lit "name", VStr (lit "Morning PPE Inspection"));
             (lit "frequency", VStr (lit "DAILY"));
             (lit "targetCount", VNum 1) ]).
  reflexivity.
Defined.

Lemma hazardZone_fields (fields : list (jsstring * value)) :
  (accepts HazardZoneRoutes.createHazardZoneSchema (VObj fields) = true <->
   aStringOfLength 3 50 (prop (lit "name") fields) /\
   absentOr aHexColor (prop (lit "color") fields)) /\
  (accepts HazardZoneRoutes.updateHazardZoneSchema (VObj fields) = true <->
   absentOr (aStringOfLength 3 50) (prop (lit "name") fields) /\
   absentOr aHexColor (prop (lit "color") fields)).
Proof.
  unfold HazardZoneRoutes.createHazardZoneSchema,
    HazardZoneRoutes.updateHazardZoneSchema.
  rewrite !accepts_object_cons, accepts_object_nil, !andb_true_iff.
  rewrite accepts_string_range.
  rewrite (accepts_optional_shape _ _ _ (accepts_string_range _ _ _)).
  rewrite (accepts_optional_shape _ _ _ (accepts_hex_color _)).
  tauto.
Qed.

(** X6: [createHazardZoneSchema] accepts an object exactly when [name] is
    a string of 3 to 50 code units and [color] is absent or [#] followed
    by six hexadecimal digits; [updateHazardZoneSchema] asks the same of
    the fields that are present. *)
Theorem hazardZone_schemas_shape (fields : list (jsstring * value)) :
  (accepts HazardZoneRoutes.createHazardZoneSchema (VObj fields) = true <->
   aStringOfLength 3 50 (prop (lit "name") fields) /\
   absentOr aHexColor (prop (lit "color") fields)) /\
  (accepts HazardZoneRoutes.updateHazardZoneSchema (VObj fields) = true <->
   absentOr (aStringOfLength 3 50) (prop (lit "name") fields) /\
   absentOr aHexColor (prop (lit "color") fields)).
Proof.
  exact (hazardZone_fields fields).
Qed.

(** X7: whatever [createHazardZoneSchema] accepts,
    [updateHazardZoneSchema] accepts too. *)
Theorem zone_body_accepted_on_update (body : value)
    (Hcreate : accepts HazardZoneRoutes.createHazardZoneSchema body = true) :
  accepts HazardZoneRoutes.updateHazardZoneSchema body = true.
Proof.
  destruct (accepted_object _ _ Hcreate) as (fields & ->).
  destruct (hazardZone_fields fields) as [Hc Hu].
  apply Hc in Hcreate as (Hname & Hcolor).
  apply Hu. unfold absentOr in *. auto.
Qed.

Lemma zone_body_accepted_on_update_witness :
  accepts HazardZoneRoutes.updateHazardZoneSchema Requests.zoneBody = true.
Proof.
  apply (zone_body_accepted_on_update Requests.zoneBody).
  reflexivity.
Defined.

(** An object schema none of whose fields accepts [null] rejects an
    object with a declared field set to [null]. *)
Lemma object_rejects_null (shape : list (jsstring * schema))
    (fields : list (jsstring * value)) (key : jsstring) :
  forallb (fun entry => negb (accepts (snd entry) VNull)) shape = true ->
  In key (keys shape) -> prop key fields = VNull ->
  accepts (ZObject shape) (VObj fields) = false.
Proof.
  intros Hshape Hkey Hnull.
  destruct (accepts (ZObject shape) (VObj fields)) eqn:Hacc; [|reflexivity].
  apply accepts_object in Hacc as (fields' & Heq & Hall).
  injection Heq as <-.
  unfold keys in Hkey. apply in_map_iff in Hkey as ([k sc] & Hk & Hin).
  simpl in Hk. subst k.
  specialize (Hall key sc Hin). rewrite Hnull in Hall.
  rewrite forallb_forall in Hshape. specialize (Hshape _ Hin). simpl in Hshape.
  rewrite Hall in Hshape. discriminate.
Qed.

(** X8: [.optional()] is not [.nullable()]: every body schema of the two
    route modules rejects an object in which one of the fields it
    declares is [null]. *)
Theorem null_field_rejected (sc : schema) (fields : list (jsstring * value))
    (key : jsstring)
    (Hsc : In sc Requests.bodySchemas)
    (Hkey : In key (keys (shapeOf sc)))
    (Hnull : prop key fields = VNull) :
  accepts sc (VObj fields) = false.
Proof.
  unfold Requests.bodySchemas in Hsc. simpl in Hsc.
  destruct Hsc as [<-|[<-|[<-|[<-|[<-|[]]]]]];
    (apply (object_rejects_null _ _ key); [reflexivity|exact Hkey|exact Hnull]).
Qed.

Lemma null_field_rejected_witness :
  accepts updateProtocolSchema (VObj Requests.nullDescription) = false.
Proof.
  apply (null_field_rejected updateProtocolSchema Requests.nullDescription
           (lit "description")).
  - simpl. tauto.
  - vm_compute. tauto.
  - reflexivity.
Defined.

Lemma prop_other (key k : jsstring) (v : value)
    (fields : list (jsstring * value)) :
  key <> k -> prop key ((k, v) :: fields) = prop key fields.
Proof.
  intros Hne. simpl. destruct (str_eqb key k) eqn:E; [|reflexivity].
  now apply str_eqb_eq in E.
Qed.

(** An object schema reads the fields it declares and no other. *)
Lemma object_ignores (shape : list (jsstring * schema)) (k : jsstring)
    (v : value) (fields : list (jsstring * value)) :
  ~ In k (keys shape) ->
  accepts (ZObject shape) (VObj ((k, v) :: fields))
  = accepts (ZObject shape) (VObj fields).
Proof.
  induction shape as [|[key sc] shape IH]; intros Hk; [reflexivity|].
  rewrite !accepts_object_cons. simpl in Hk.
  rewrite IH by tauto. rewrite prop_other; [reflexivity|].
  intros ->. tauto.
Qed.

(** X9: a property the schema does not declare never makes a body
    invalid: every body schema of the two route modules decides an object
    as it decides the object without that property. *)
Theorem unknown_property_ignored (sc : schema) (k : jsstring) (v : value)
    (fields : list (jsstring * value))
    (Hsc : In sc Requests.bodySchemas)
    (Hk : ~ In k (keys (shapeOf sc))) :
  accepts sc (VObj ((k, v) :: fields)) = accepts sc (VObj fields).
Proof.
  unfold Requests.bodySchemas in Hsc. simpl in Hsc.
  destruct Hsc as [<-|[<-|[<-|[<-|[<-|[]]]]]];
    apply object_ignores; exact Hk.
Qed.

Lemma unknown_property_ignored_witness :
  accepts createProtocolSchema
    (VObj ((lit "isActive", VBool false)
           :: [ (lit "name", VStr (lit "Morning PPE Inspection"));
                (lit "frequency", VStr (lit "DAILY"));
                (lit "targetCount", VNum 1) ]))
  = accepts createProtocolSchema
      (VObj [ (lit "name", VStr (lit "Morning PPE Inspection"));
              (lit "frequency", VStr (lit "DAILY"));
              (lit "targetCount", VNum 1) ]).
Proof.
  apply (unknown_property_ignored createProtocolSchema (lit "isActive")).
  - simpl. tauto.
  - vm_compute. intuition discriminate.
Defined.

End BodySchemas.

(** ** The route tables *)

Module Routing.
Import Js Zod Express Shapes SchemaFacts ShapeFacts FormatFacts DispatchFacts.
Import RouteConditions.
Local Open Scope string_scope.










Section Tables.

Variable authenticated : request -> bool.














End Tables.





End Routing.
